(** * club_app: the sports-club models and their display representation

    A shallow embedding of [club_app/models.py]: the five entities
    (Profile, Manufacturer, Club, Equipment, Member), their ordered
    display mappings, summary strings and canonical references, and the
    persistence operations their field declarations ask of the ORM. *)

From Stdlib Require Import ZArith String Ascii.
From stdpp Require Import gmap strings list fin_maps.

Set Warnings "-register-all".

Local Open Scope Z_scope.
Local Open Scope string_scope.

(** ** Python values and exceptions *)

(** The exceptions the modelled code can raise. *)
Inductive exn :=
| TypeError        (* e.g. [str.join] over a non-string item *)
| KeyError         (* a mapping has no such key *)
| NoReverseMatch   (* [reverse] finds no route *)
| ValueError       (* saving a row that points to an unsaved object *)
| AssertionError   (* deleting an object that has no primary key *)
| IntegrityError   (* a constraint of the storage backend is violated *)
| ProtectedError.  (* deletion blocked by a PROTECT foreign key *)

Inductive result (A : Type) :=
| Ok (a : A)
| Raise (e : exn).
Arguments Ok {A} a.
Arguments Raise {A} e.

#[export] Instance result_ret : MRet result := @Ok.
#[export] Instance result_bind : MBind result := λ A B f m,
  match m with
  | Ok a => f a
  | Raise e => Raise e
  end.

(** The values that can sit in a display mapping.  [PDict] is an
    [OrderedDict]: an association list in insertion order. *)
Inductive pyval :=
| PNone
| PBool (b : bool)
| PInt (z : Z)
| PStr (s : string)
| PDict (d : list (string * pyval)).

Abbreviation odict := (list (string * pyval)).

#[export] Instance exn_eq_dec : EqDecision exn.
Proof. solve_decision. Defined.

(** [d.keys()] and [d.values()], in insertion order. *)
Definition keys (d : odict) : list string := d.*1.
Definition values (d : odict) : list pyval := d.*2.

(** [d[k]]: the value bound to [k], or KeyError. *)
Fixpoint od_get (k : string) (d : odict) : result pyval :=
  match d with
  | [] => Raise KeyError
  | (k', v) :: d' => if decide (k' = k) then Ok v else od_get k d'
  end.

(** [d[k] = v] on an OrderedDict: an existing key keeps its place, a new
    key goes to the end. *)
Fixpoint od_set (k : string) (v : pyval) (d : odict) : odict :=
  match d with
  | [] => [(k, v)]
  | (k', v') :: d' =>
      if decide (k' = k) then (k, v) :: d' else (k', v') :: od_set k v d'
  end.

(** The items of a list as strings, as [str.join] demands them. *)
Fixpoint as_strs (l : list pyval) : result (list string) :=
  match l with
  | [] => Ok []
  | PStr s :: l' => ss ← as_strs l'; Ok (s :: ss)
  | _ :: _ => Raise TypeError
  end.

(** [sep.join(items)]: TypeError unless every item is a [str]. *)
Definition str_join (sep : string) (items : list pyval) : result string :=
  ss ← as_strs items; Ok (String.concat sep ss).

(** The separator U+203A between two spaces, as UTF-8 bytes. *)
Definition sep : string := " › ".

(** A value occurs raw in a mapping, at any depth. *)
Fixpoint occurs_bool (v : pyval) : bool :=
  match v with
  | PBool _ => true
  | PDict d => existsb (λ kv, occurs_bool kv.2) d
  | _ => false
  end.

(** ** Dates *)

(** A [datetime.date] (days) or a [datetime.datetime] (seconds). *)
Inductive temporal :=
| ADate (days : Z)
| ADateTime (secs : Z).

#[export] Instance temporal_eq_dec : EqDecision temporal.
Proof. solve_decision. Defined.

(** ** django_jinja_knockout.tpl *)

(** [Str]: a string (the URL) that carries a display [text]. *)
Record Str := { url : string; text : string }.

(** What [models.py] imports from [django_jinja_knockout.tpl] and cannot
    be read off the repository: the locale's date format and the URL
    resolver.  [reverse] is given the route name and its keyword
    arguments. *)
Class Tpl := {
  format_local_date : temporal → string;
  reverse : string → list (string * option Z) → result string
}.

(** [fmt.format(arg)] for a format with one anonymous field, such as the
    default enclosure [({})]: the first [{}] is replaced by the
    argument. *)
Fixpoint py_format (fmt arg : string) : string :=
  match fmt with
  | EmptyString => EmptyString
  | String "{"%char (String "}"%char rest) => arg +:+ rest
  | String c rest => String c (py_format rest arg)
  end.

Definition enclose (enclosure_fmt : option string) (s : string) : string :=
  match enclosure_fmt with
  | None => s
  | Some fmt => py_format fmt s
  end.

Definition od_traverse (f : pyval → result pyval) : odict → result odict :=
  fix go (d : odict) : result odict :=
    match d with
    | [] => Ok []
    | (k, v) :: d' => v' ← f v; r ← go d'; Ok ((k, v') :: r)
    end.

(** Modelled from the spec: [flatten_dict] and [str_dict] of
    django_jinja_knockout.tpl, which the repository imports and does not
    contain.  Sections 4.2, 4.3 and 8 of the specification: a nested
    mapping is replaced by its own summary string, the values of the
    mapping joined by the separator (the same join [Club.__str__] writes
    out), wrapped in the enclosure format unless it is None; other values
    are kept. *)
Fixpoint flatten_value (separator : string) (enclosure_fmt : option string)
    (v : pyval) {struct v} : result pyval :=
  match v with
  | PDict d =>
      flat ← od_traverse (flatten_value separator enclosure_fmt) d;
      s ← str_join separator (values flat);
      Ok (PStr (enclose enclosure_fmt s))
  | _ => Ok v
  end.

Definition flatten_dict (d : odict) (separator : string)
    (enclosure_fmt : option string) : result odict :=
  od_traverse (flatten_value separator enclosure_fmt) d.

Definition str_dict (d : odict) (separator : string)
    (enclosure_fmt : option string) : result string :=
  flat ← flatten_dict d separator enclosure_fmt;
  str_join separator (values flat).

(** The default of [enclosure_fmt]. *)
Definition default_enclosure : option string := Some "({})".

(** ** django.db.models: choices *)

(** [get_FOO_display] of a field with [choices]: the label of the stored
    value, and the stored value itself when no choice has it. *)
Fixpoint choice_label (choices : list (Z * string)) (value : Z) : option string :=
  match choices with
  | [] => None
  | (v, label) :: rest => if decide (v = value) then Some label else choice_label rest value
  end.

Definition get_FIELD_display (choices : list (Z * string)) (value : Z) : pyval :=
  match choice_label choices value with
  | Some label => PStr label
  | None => PInt value
  end.

(** [format_local_date] applied to an attribute that may still be None:
    the formatter takes a date or a datetime only. *)
Definition format_attr `{Tpl} (v : option temporal) : result pyval :=
  match v with
  | Some t => Ok (PStr (format_local_date t))
  | None => Raise TypeError
  end.

(** ** django.db: tables, constraints, deletion *)

Module db.
(** [on_delete] of a [ForeignKey]. *)
Inductive on_delete_policy := CASCADE | PROTECT | SET_NULL | DO_NOTHING.

Record ForeignKey := {
  null : bool;
  blank : bool;
  on_delete : on_delete_policy
}.

(** The rows of the five tables; the primary key is the key of the
    table.  Every column is NOT NULL but [manufacturer_id]. *)
Record ProfileRow := {
  p_first_name : string;
  p_last_name : string;
  p_birth_date : temporal
}.

Record ManufacturerRow := {
  m_company_name : string;
  m_direct_shipping : bool
}.

Record ClubRow := {
  c_title : string;
  c_category : Z;
  c_foundation_date : temporal;
  c_last_update : temporal
}.

Record EquipmentRow := {
  e_club_id : Z;
  e_manufacturer_id : option Z;
  e_inventory_name : string;
  e_category : Z
}.

Record MemberRow := {
  r_profile_id : Z;
  r_club_id : Z;
  r_last_visit : temporal;
  r_plays : Z;
  r_role : Z;
  r_note : string;
  r_is_endorsed : bool
}.

Record Database := {
  profiles : gmap Z ProfileRow;
  manufacturers : gmap Z ManufacturerRow;
  clubs : gmap Z ClubRow;
  equipments : gmap Z EquipmentRow;
  members : gmap Z MemberRow
}.

Definition empty : Database :=
  {| profiles := ∅; manufacturers := ∅; clubs := ∅; equipments := ∅; members := ∅ |}.

Definition set_profiles (t : gmap Z ProfileRow) (d : Database) : Database :=
  {| profiles := t; manufacturers := manufacturers d; clubs := clubs d;
     equipments := equipments d; members := members d |}.
Definition set_manufacturers (t : gmap Z ManufacturerRow) (d : Database) : Database :=
  {| profiles := profiles d; manufacturers := t; clubs := clubs d;
     equipments := equipments d; members := members d |}.
Definition set_clubs (t : gmap Z ClubRow) (d : Database) : Database :=
  {| profiles := profiles d; manufacturers := manufacturers d; clubs := t;
     equipments := equipments d; members := members d |}.
Definition set_equipments (t : gmap Z EquipmentRow) (d : Database) : Database :=
  {| profiles := profiles d; manufacturers := manufacturers d; clubs := clubs d;
     equipments := t; members := members d |}.
Definition set_members (t : gmap Z MemberRow) (d : Database) : Database :=
  {| profiles := profiles d; manufacturers := manufacturers d; clubs := clubs d;
     equipments := equipments d; members := t |}.

(** The key an AutoField gives a new row: one past the largest in use. *)
Definition fresh_pk {V} (t : gmap Z V) : Z :=
  1 + foldr Z.max 0 (map_to_list t).*1.

(** Modelled from the spec: the storage backend that enforces unique
    indexes is no part of the repository (sections 3, 4.1 and 7: a
    uniqueness constraint is enforced at the persistence boundary and
    its violation is a conflict error).  A unique index over the columns
    [key]: no row other than the one written (primary key [k]) has the
    same key. *)
Definition unique_ok {V K} `{EqDecision K} (key : V → K) (k : Z) (row : V)
    (t : gmap Z V) : bool :=
  bool_decide (map_Forall (λ k' r, k' = k ∨ key r ≠ key row) t).

(** A foreign key column: the row pointed to exists. *)
Definition fk_ok {V} (ref : option Z) (t : gmap Z V) : bool :=
  match ref with
  | None => true
  | Some k => bool_decide (is_Some (t !! k))
  end.

(** Modelled from the spec: the engine behind [Model.delete] is no part
    of the repository (sections 3, 6 and 7: deletion is immediate and
    cascades as the foreign key's policy says).  What deleting row [k]
    does to a table whose column [ref] points to it, by the column's
    [on_delete]. *)
Definition apply_on_delete {V} (fk : ForeignKey) (ref : V → option Z)
    (clear : V → V) (k : Z) (t : gmap Z V) : result (gmap Z V) :=
  match on_delete fk with
  | CASCADE => Ok (filter (λ kr, ref kr.2 ≠ Some k) t)
  | PROTECT =>
      if decide (map_Forall (λ _ r, ref r ≠ Some k) t) then Ok t
      else Raise ProtectedError
  | SET_NULL => Ok ((λ r, if decide (ref r = Some k) then clear r else r) <$> t)
  | DO_NOTHING => Ok t
  end.
End db.

(** ** django.utils.timezone and the process state *)

(** The state a request runs in: the database, the clock ([clock n] is
    what the [n]-th reading of the time returns) and the current time
    zone ([date_of]: the local date of an instant, [midnight]: the
    instant a local date starts). *)
Record World := {
  database : db.Database;
  clock : nat → Z;
  reads : nat;
  date_of : Z → Z;
  midnight : Z → Z
}.

Definition set_database (d : db.Database) (w : World) : World :=
  {| database := d; clock := clock w; reads := reads w;
     date_of := date_of w; midnight := midnight w |}.

(** [timezone.now()]. *)
Definition timezone_now (w : World) : temporal * World :=
  (ADateTime (clock w (reads w)),
   {| database := database w; clock := clock w; reads := S (reads w);
      date_of := date_of w; midnight := midnight w |}).

(** What a DateField and a DateTimeField make of an assigned value when
    the row is written. *)
Definition DateField_to_python (w : World) (v : temporal) : temporal :=
  match v with
  | ADate d => ADate d
  | ADateTime s => ADate (date_of w s)
  end.

Definition DateTimeField_to_python (w : World) (v : temporal) : temporal :=
  match v with
  | ADate d => ADateTime (midnight w d)
  | ADateTime s => ADateTime s
  end.

(** ** The models *)

Module Profile.
Record t := {
  pk : option Z;
  first_name : string;
  last_name : string;
  birth_date : temporal
}.

Definition set_pk (k : option Z) (self : t) : t :=
  {| pk := k; first_name := first_name self; last_name := last_name self;
     birth_date := birth_date self |}.

Section methods.
Context `{Tpl}.

Definition get_str_fields (self : t) : odict :=
  [ ("first_name", PStr (first_name self));
    ("last_name", PStr (last_name self));
    ("birth_date", PStr (format_local_date (birth_date self))) ].

Definition __str__ (self : t) : string :=
  String.concat " " [first_name self; last_name self].
End methods.

Definition to_row (w : World) (self : t) : db.ProfileRow :=
  {| db.p_first_name := first_name self; db.p_last_name := last_name self;
     db.p_birth_date := DateField_to_python w (birth_date self) |}.

(** [unique_together = ('first_name', 'last_name', 'birth_date')]. *)
Definition unique_together (r : db.ProfileRow) : string * string * temporal :=
  (db.p_first_name r, db.p_last_name r, db.p_birth_date r).

(** [Model.save], inherited. *)
Definition save (self : t) (w : World) : result () * t * World :=
  let row := to_row w self in
  let tbl := db.profiles (database w) in
  let k := default (db.fresh_pk tbl) (pk self) in
  if db.unique_ok unique_together k row tbl then
    (Ok (), set_pk (Some k) self,
     set_database (db.set_profiles (<[k := row]> tbl) (database w)) w)
  else (Raise IntegrityError, self, w).
End Profile.

Module Manufacturer.
Record t := {
  pk : option Z;
  company_name : string;
  direct_shipping : bool
}.

Definition set_pk (k : option Z) (self : t) : t :=
  {| pk := k; company_name := company_name self;
     direct_shipping := direct_shipping self |}.

Definition get_str_fields (self : t) : odict :=
  let str_fields := [ ("company_name", PStr (company_name self)) ] in
  let str_fields :=
    od_set "direct_shipping"
      (PStr (if direct_shipping self then "Yes (direct)" else "No (remote)"))
      str_fields in
  str_fields.

Definition __str__ (self : t) : result string :=
  str_join sep (values (get_str_fields self)).

Definition to_row (self : t) : db.ManufacturerRow :=
  {| db.m_company_name := company_name self;
     db.m_direct_shipping := direct_shipping self |}.

(** [Model.save], inherited; [company_name] is [unique=True]. *)
Definition save (self : t) (w : World) : result () * t * World :=
  let row := to_row self in
  let tbl := db.manufacturers (database w) in
  let k := default (db.fresh_pk tbl) (pk self) in
  if db.unique_ok db.m_company_name k row tbl then
    (Ok (), set_pk (Some k) self,
     set_database (db.set_manufacturers (<[k := row]> tbl) (database w)) w)
  else (Raise IntegrityError, self, w).
End Manufacturer.

Module Club.
Definition CATEGORY_RECREATIONAL : Z := 0.
Definition CATEGORY_PROFESSIONAL : Z := 1.
Definition CATEGORIES : list (Z * string) :=
  [ (CATEGORY_RECREATIONAL, "Recreational");
    (CATEGORY_PROFESSIONAL, "Professional") ].

(** An instance in memory: the primary key and the two dates are None
    until they are given or stamped. *)
Record t := {
  pk : option Z;
  title : string;
  category : Z;
  foundation_date : option temporal;
  last_update : option temporal
}.

Definition set_pk (k : option Z) (self : t) : t :=
  {| pk := k; title := title self; category := category self;
     foundation_date := foundation_date self; last_update := last_update self |}.
Definition set_title (s : string) (self : t) : t :=
  {| pk := pk self; title := s; category := category self;
     foundation_date := foundation_date self; last_update := last_update self |}.
Definition set_category (c : Z) (self : t) : t :=
  {| pk := pk self; title := title self; category := c;
     foundation_date := foundation_date self; last_update := last_update self |}.
Definition set_foundation_date (d : option temporal) (self : t) : t :=
  {| pk := pk self; title := title self; category := category self;
     foundation_date := d; last_update := last_update self |}.
Definition set_last_update (d : option temporal) (self : t) : t :=
  {| pk := pk self; title := title self; category := category self;
     foundation_date := foundation_date self; last_update := d |}.

(** The row [Model.save] writes; a date that is still None violates
    the column's NOT NULL. *)
Definition to_row (w : World) (self : t) : result db.ClubRow :=
  match foundation_date self, last_update self with
  | Some fd, Some lu =>
      Ok {| db.c_title := title self; db.c_category := category self;
            db.c_foundation_date := DateField_to_python w fd;
            db.c_last_update := DateTimeField_to_python w lu |}
  | _, _ => Raise IntegrityError
  end.

(** [super().save()]: [Model.save].  An object without primary key is
    inserted under a new one, an object with one replaces the row of
    that key; [title] is [unique=True].  No validator runs: the
    [choices] of [category] are not consulted. *)
Definition Model_save (self : t) (w : World) : result () * t * World :=
  match to_row w self with
  | Raise e => (Raise e, self, w)
  | Ok row =>
      let tbl := db.clubs (database w) in
      let k := default (db.fresh_pk tbl) (pk self) in
      if db.unique_ok db.c_title k row tbl then
        (Ok (), set_pk (Some k) self,
         set_database (db.set_clubs (<[k := row]> tbl) (database w)) w)
      else (Raise IntegrityError, self, w)
  end.

Definition save (self : t) (w : World) : result () * t * World :=
  let '(self, w) :=
    match pk self with
    | None =>
        let '(self, w) :=
          match foundation_date self with
          | None =>
              let '(now, w) := timezone_now w in
              (set_foundation_date (Some now) self, w)
          | Some _ => (self, w)
          end in
        let '(now, w) := timezone_now w in
        (set_last_update (Some now) self, w)
    | Some _ => (self, w)
    end in
  Model_save self w.

Definition get_category_display (self : t) : pyval :=
  get_FIELD_display CATEGORIES (category self).

Section methods.
Context `{Tpl}.

Definition get_absolute_url (self : t) : result Str :=
  u ← reverse "club_detail" [("club_id", pk self)];
  Ok {| url := u; text := title self |}.

Definition get_str_fields (self : t) : result odict :=
  fd ← format_attr (foundation_date self);
  lu ← format_attr (last_update self);
  Ok [ ("title", PStr (title self));
       ("category", get_category_display self);
       ("foundation_date", fd);
       ("last_update", lu) ].

Definition __str__ (self : t) : result string :=
  d ← get_str_fields self;
  str_join sep (values d).
End methods.
End Club.

Module Equipment.
Definition CATEGORY_RACKET : Z := 0.
Definition CATEGORY_BALL : Z := 1.
Definition CATEGORY_SHUTTLECOCK : Z := 2.
Definition CATEGORY_OTHER : Z := 3.
Definition CATEGORIES : list (Z * string) :=
  [ (CATEGORY_RACKET, "Racket");
    (CATEGORY_BALL, "Ball");
    (CATEGORY_SHUTTLECOCK, "Shuttlecock");
    (CATEGORY_OTHER, "Other type") ].

(** The two ForeignKey fields as declared. *)
Definition club_field : db.ForeignKey :=
  {| db.null := false; db.blank := false; db.on_delete := db.CASCADE |}.
Definition manufacturer_field : db.ForeignKey :=
  {| db.null := true; db.blank := true; db.on_delete := db.CASCADE |}.

Record t := {
  pk : option Z;
  club : Club.t;
  manufacturer : option Manufacturer.t;
  inventory_name : string;
  category : Z
}.

Definition set_pk (k : option Z) (self : t) : t :=
  {| pk := k; club := club self; manufacturer := manufacturer self;
     inventory_name := inventory_name self; category := category self |}.

Definition set_category (c : Z) (self : t) : t :=
  {| pk := pk self; club := club self; manufacturer := manufacturer self;
     inventory_name := inventory_name self; category := c |}.

Definition get_category_display (self : t) : pyval :=
  get_FIELD_display CATEGORIES (category self).

Section methods.
Context `{Tpl}.

Definition get_absolute_url (self : t) : result Str :=
  u ← reverse "equipment_detail" [("equipment_id", pk self)];
  Ok {| url := u; text := inventory_name self |}.

Definition get_str_fields (self : t) : result odict :=
  club_fields ← Club.get_str_fields (club self);
  let str_fields := [ ("club", PDict club_fields) ] in
  let str_fields :=
    match manufacturer self with
    | Some m => od_set "manufacturer" (PDict (Manufacturer.get_str_fields m)) str_fields
    | None => str_fields
    end in
  let str_fields := od_set "inventory_name" (PStr (inventory_name self)) str_fields in
  let str_fields := od_set "category" (get_category_display self) str_fields in
  Ok str_fields.

Definition __str__ (self : t) : result string :=
  str_fields ← get_str_fields self;
  str_dict str_fields sep default_enclosure.
End methods.

(** The row to write: a related object that was never saved has no key
    to store. *)
Definition to_row (self : t) : result db.EquipmentRow :=
  match Club.pk (club self) with
  | None => Raise ValueError
  | Some c =>
      let row m := {| db.e_club_id := c; db.e_manufacturer_id := m;
                      db.e_inventory_name := inventory_name self;
                      db.e_category := category self |} in
      match manufacturer self with
      | None => Ok (row None)
      | Some m =>
          match Manufacturer.pk m with
          | None => Raise ValueError
          | Some k => Ok (row (Some k))
          end
      end
  end.

(** [Model.save], inherited. *)
Definition save (self : t) (w : World) : result () * t * World :=
  match to_row self with
  | Raise e => (Raise e, self, w)
  | Ok row =>
      let d := database w in
      let tbl := db.equipments d in
      let k := default (db.fresh_pk tbl) (pk self) in
      if db.fk_ok (Some (db.e_club_id row)) (db.clubs d)
         && db.fk_ok (db.e_manufacturer_id row) (db.manufacturers d) then
        (Ok (), set_pk (Some k) self,
         set_database (db.set_equipments (<[k := row]> tbl) d) w)
      else (Raise IntegrityError, self, w)
  end.
End Equipment.

Module Member.
Definition SPORT_BADMINTON : Z := 0.
Definition SPORT_TENNIS : Z := 1.
Definition SPORT_TABLE_TENNIS : Z := 2.
Definition SPORT_SQUASH : Z := 3.
Definition SPORT_ANOTHER : Z := 4.
Definition BASIC_SPORTS : list (Z * string) :=
  [ (SPORT_BADMINTON, "Badminton");
    (SPORT_TENNIS, "Tennis");
    (SPORT_TABLE_TENNIS, "Table tennis") ].
Definition SPORTS : list (Z * string) :=
  BASIC_SPORTS ++
  [ (SPORT_SQUASH, "Squash");
    (SPORT_ANOTHER, "Another sport") ].
Definition ROLE_OWNER : Z := 0.
Definition ROLE_FOUNDER : Z := 1.
Definition ROLE_MEMBER : Z := 2.
Definition ROLES : list (Z * string) :=
  [ (ROLE_OWNER, "Owner");
    (ROLE_FOUNDER, "Founder");
    (ROLE_MEMBER, "Member") ].

Definition profile_field : db.ForeignKey :=
  {| db.null := false; db.blank := false; db.on_delete := db.CASCADE |}.
Definition club_field : db.ForeignKey :=
  {| db.null := false; db.blank := true; db.on_delete := db.CASCADE |}.

Record t := {
  pk : option Z;
  profile : Profile.t;
  club : Club.t;
  last_visit : temporal;
  plays : Z;
  role : Z;
  note : string;
  is_endorsed : bool
}.

Definition set_pk (k : option Z) (self : t) : t :=
  {| pk := k; profile := profile self; club := club self;
     last_visit := last_visit self; plays := plays self; role := role self;
     note := note self; is_endorsed := is_endorsed self |}.
Definition set_note (s : string) (self : t) : t :=
  {| pk := pk self; profile := profile self; club := club self;
     last_visit := last_visit self; plays := plays self; role := role self;
     note := s; is_endorsed := is_endorsed self |}.

Definition set_plays (v : Z) (self : t) : t :=
  {| pk := pk self; profile := profile self; club := club self;
     last_visit := last_visit self; plays := v; role := role self;
     note := note self; is_endorsed := is_endorsed self |}.
Definition set_role (v : Z) (self : t) : t :=
  {| pk := pk self; profile := profile self; club := club self;
     last_visit := last_visit self; plays := plays self; role := v;
     note := note self; is_endorsed := is_endorsed self |}.

Definition get_plays_display (self : t) : pyval :=
  get_FIELD_display SPORTS (plays self).
Definition get_role_display (self : t) : pyval :=
  get_FIELD_display ROLES (role self).

Section methods.
Context `{Tpl}.

Definition get_str_fields (self : t) : result odict :=
  let profile_fields := Profile.get_str_fields (profile self) in
  club_fields ← Club.get_str_fields (club self);
  let parts :=
    [ ("profile", PDict profile_fields);
      ("club", PDict club_fields);
      ("last_visit", PStr (format_local_date (last_visit self)));
      ("plays", get_plays_display self);
      ("role", get_role_display self);
      ("is_endorsed", PStr (if is_endorsed self then "endorsed" else "unofficial")) ] in
  Ok parts.

Definition get_absolute_url (self : t) : result Str :=
  u ← reverse "member_detail" [("member_id", pk self)];
  d ← get_str_fields self;
  str_fields ← flatten_dict d sep None;
  p ← od_get "profile" str_fields;
  c ← od_get "club" str_fields;
  label ← str_join " / " [p; c];
  Ok {| url := u; text := label |}.

Definition __str__ (self : t) : result string :=
  str_fields ← get_str_fields self;
  str_dict str_fields sep default_enclosure.
End methods.

Definition to_row (w : World) (self : t) : result db.MemberRow :=
  match Profile.pk (profile self), Club.pk (club self) with
  | Some p, Some c =>
      Ok {| db.r_profile_id := p; db.r_club_id := c;
            db.r_last_visit := DateTimeField_to_python w (last_visit self);
            db.r_plays := plays self; db.r_role := role self;
            db.r_note := note self; db.r_is_endorsed := is_endorsed self |}
  | _, _ => Raise ValueError
  end.

(** [unique_together = ('profile', 'club')]. *)
Definition unique_together (r : db.MemberRow) : Z * Z :=
  (db.r_profile_id r, db.r_club_id r).

(** [Model.save], inherited. *)
Definition save (self : t) (w : World) : result () * t * World :=
  match to_row w self with
  | Raise e => (Raise e, self, w)
  | Ok row =>
      let d := database w in
      let tbl := db.members d in
      let k := default (db.fresh_pk tbl) (pk self) in
      if db.fk_ok (Some (db.r_profile_id row)) (db.profiles d)
         && db.fk_ok (Some (db.r_club_id row)) (db.clubs d) then
        if db.unique_ok unique_together k row tbl then
          (Ok (), set_pk (Some k) self,
           set_database (db.set_members (<[k := row]> tbl) d) w)
        else (Raise IntegrityError, self, w)
      else (Raise IntegrityError, self, w)
  end.
End Member.

(** ** Model.delete *)

(** Modelled from the spec: [Model.delete] is inherited from the
    framework, not written in the repository.  For each model the row
    goes, and every table with a ForeignKey to the model is treated as
    the field's [on_delete] says.  Nothing points to Equipment or
    Member. *)
Module Model.
Definition delete_Profile (self : Profile.t) (w : World) : result World :=
  match Profile.pk self with
  | None => Raise AssertionError
  | Some k =>
      let d := database w in
      ms ← db.apply_on_delete Member.profile_field
              (λ r, Some (db.r_profile_id r)) id k (db.members d);
      Ok (set_database
            (db.set_members ms (db.set_profiles (delete k (db.profiles d)) d)) w)
  end.

Definition delete_Manufacturer (self : Manufacturer.t) (w : World) : result World :=
  match Manufacturer.pk self with
  | None => Raise AssertionError
  | Some k =>
      let d := database w in
      es ← db.apply_on_delete Equipment.manufacturer_field
              db.e_manufacturer_id
              (λ r, {| db.e_club_id := db.e_club_id r; db.e_manufacturer_id := None;
                       db.e_inventory_name := db.e_inventory_name r;
                       db.e_category := db.e_category r |})
              k (db.equipments d);
      Ok (set_database
            (db.set_equipments es
               (db.set_manufacturers (delete k (db.manufacturers d)) d)) w)
  end.

Definition delete_Club (self : Club.t) (w : World) : result World :=
  match Club.pk self with
  | None => Raise AssertionError
  | Some k =>
      let d := database w in
      es ← db.apply_on_delete Equipment.club_field
              (λ r, Some (db.e_club_id r)) id k (db.equipments d);
      ms ← db.apply_on_delete Member.club_field
              (λ r, Some (db.r_club_id r)) id k (db.members d);
      Ok (set_database
            (db.set_members ms
               (db.set_equipments es (db.set_clubs (delete k (db.clubs d)) d))) w)
  end.

Definition delete_Equipment (self : Equipment.t) (w : World) : result World :=
  match Equipment.pk self with
  | None => Raise AssertionError
  | Some k =>
      let d := database w in
      Ok (set_database (db.set_equipments (delete k (db.equipments d)) d) w)
  end.

Definition delete_Member (self : Member.t) (w : World) : result World :=
  match Member.pk self with
  | None => Raise AssertionError
  | Some k =>
      let d := database w in
      Ok (set_database (db.set_members (delete k (db.members d)) d) w)
  end.
End Model.

(** ** Requests *)

(** What the request layer can ask of the persistence layer. *)
Inductive op :=
| SaveProfile (o : Profile.t)
| SaveManufacturer (o : Manufacturer.t)
| SaveClub (o : Club.t)
| SaveEquipment (o : Equipment.t)
| SaveMember (o : Member.t)
| DeleteProfile (o : Profile.t)
| DeleteManufacturer (o : Manufacturer.t)
| DeleteClub (o : Club.t)
| DeleteEquipment (o : Equipment.t)
| DeleteMember (o : Member.t).

(** The world after a request, whether it succeeded or raised. *)
Definition run (w : World) (o : op) : World :=
  match o with
  | SaveProfile x => (Profile.save x w).2
  | SaveManufacturer x => (Manufacturer.save x w).2
  | SaveClub x => (Club.save x w).2
  | SaveEquipment x => (Equipment.save x w).2
  | SaveMember x => (Member.save x w).2
  | DeleteProfile x => match Model.delete_Profile x w with Ok w' => w' | Raise _ => w end
  | DeleteManufacturer x => match Model.delete_Manufacturer x w with Ok w' => w' | Raise _ => w end
  | DeleteClub x => match Model.delete_Club x w with Ok w' => w' | Raise _ => w end
  | DeleteEquipment x => match Model.delete_Equipment x w with Ok w' => w' | Raise _ => w end
  | DeleteMember x => match Model.delete_Member x w with Ok w' => w' | Raise _ => w end
  end.

(** A world reached from an empty database by a sequence of requests. *)
Definition reachable (w : World) : Prop :=
  ∃ (w0 : World) (ops : list op),
    database w0 = db.empty ∧ w = foldl run w0 ops.

(** An edit of a club by the request layer. *)
Inductive edit :=
| SetTitle (s : string)
| SetCategory (c : Z).

Definition apply_edit (e : edit) (c : Club.t) : Club.t :=
  match e with
  | SetTitle s => Club.set_title s c
  | SetCategory v => Club.set_category v c
  end.

(** The object is edited and saved; it and the world go on, whether the
    save succeeded or raised. *)
Definition edit_and_save (st : Club.t * World) (e : edit) : Club.t * World :=
  let out := Club.save (apply_edit e st.1) st.2 in
  (out.1.2, out.2).

(** ** Invariants of the database *)

(** No two rows of a table agree on the columns [key]. *)
Definition unique_on {V K} (key : V → K) (t : gmap Z V) : Prop :=
  ∀ k1 k2 r1 r2,
    t !! k1 = Some r1 → t !! k2 = Some r2 → k1 ≠ k2 → key r1 ≠ key r2.

(** Every foreign key points to a row. *)
Definition fk_intact (d : db.Database) : Prop :=
  (∀ k r, db.equipments d !! k = Some r →
     is_Some (db.clubs d !! db.e_club_id r) ∧
     ∀ m, db.e_manufacturer_id r = Some m → is_Some (db.manufacturers d !! m)) ∧
  (∀ k r, db.members d !! k = Some r →
     is_Some (db.profiles d !! db.r_profile_id r) ∧
     is_Some (db.clubs d !! db.r_club_id r)).

(** What every reachable database satisfies: club titles and
    (profile, club) pairs are unique, and no foreign key dangles. *)
Definition consistent (d : db.Database) : Prop :=
  unique_on db.c_title (db.clubs d) ∧
  unique_on Member.unique_together (db.members d) ∧
  fk_intact d.

(** ** djk_sample/urls.py *)

Module urls.

(** A request path is text: a list of code points. *)
Abbreviation text := (list N).

(** The text of an ASCII literal. *)
Definition str (s : string) : text := N_of_ascii <$> list_ascii_of_string s.

(** The regular expressions the patterns are written in. *)
Inductive regex :=
| Caret                               (* ^ *)
| Dollar                              (* $ *)
| Lit (s : string)                    (* literal characters *)
| Word                                (* \w *)
| Opt (r : regex)                     (* r? *)
| Star (r : regex)                    (* r* *)
| Cat (r1 r2 : regex)                 (* r1 r2 *)
| Group (name : string) (r : regex).  (* (?P<name>r) *)

(** Where a match stands: the offset in the searched text, the text
    still ahead, and the named groups closed so far. *)
Record mstate := {
  pos : nat;
  ahead : text;
  groups : list (string * text)
}.

Definition advance (n : nat) (st : mstate) : mstate :=
  {| pos := pos st + n; ahead := drop n (ahead st); groups := groups st |}.

Definition close_group (name : string) (t : text) (st : mstate) : mstate :=
  {| pos := pos st; ahead := ahead st; groups := (name, t) :: groups st |}.

(** [l] stripped from the front of [t], when [t] starts with it. *)
Fixpoint strip (l t : text) : option text :=
  match l, t with
  | [], _ => Some t
  | a :: l', b :: t' => if decide (a = b) then strip l' t' else None
  | _ :: _, [] => None
  end.

Definition ascii_word (c : N) : bool :=
  ((48 <=? c) && (c <=? 57) || (65 <=? c) && (c <=? 90)
   || (97 <=? c) && (c <=? 122) || (c =? 95))%N.

(** The iterations of [r*], at most [fuel] of them: one more match of
    the body [body] that moves on in the text, then the rest of the
    iterations; failing that, the continuation [k]. *)
Definition star_loop (body : mstate → (mstate → option mstate) → option mstate)
    (k : mstate → option mstate) : nat → mstate → option mstate :=
  fix loop (fuel : nat) (st : mstate) : option mstate :=
    match fuel with
    | O => k st
    | S fuel' =>
        match body st (λ st', if decide (pos st < pos st')%nat
                              then loop fuel' st' else None) with
        | Some m => Some m
        | None => k st
        end
    end.

Section matcher.
(** Which code points past ASCII [\w] takes: the alphanumerics of the
    Unicode database, not spelled out here. *)
Variable unicode_word : N → bool.

Definition is_word (c : N) : bool :=
  if (c <? 128)%N then ascii_word c else unicode_word c.

(** A backtracking matcher: [exec r st k] matches [r] at [st] and hands
    the state reached to [k]; when [k] fails the next way of matching
    [r] is tried, the longer first for [?] and [*]. *)
Fixpoint exec (r : regex) (st : mstate) (k : mstate → option mstate)
    {struct r} : option mstate :=
  match r with
  | Caret => match pos st with O => k st | S _ => None end
  | Dollar =>
      match ahead st with
      | [] => k st
      | [c] => if decide (c = 10%N) then k st else None
      | _ => None
      end
  | Lit s =>
      match strip (str s) (ahead st) with
      | Some _ => k (advance (length (str s)) st)
      | None => None
      end
  | Word =>
      match ahead st with
      | c :: _ => if is_word c then k (advance 1 st) else None
      | [] => None
      end
  | Opt r' =>
      match exec r' st k with
      | Some m => Some m
      | None => k st
      end
  | Star r' => star_loop (exec r') k (length (ahead st)) st
  | Cat r1 r2 => exec r1 st (λ st', exec r2 st' k)
  | Group name r' =>
      exec r' st
        (λ st', k (close_group name (take (pos st' - pos st) (ahead st)) st'))
  end.

(** [regex.search(path)]: the first offset at which the expression
    matches. *)
Fixpoint search_from (r : regex) (p : nat) (t : text) : option mstate :=
  match exec r {| pos := p; ahead := t; groups := [] |} Some with
  | Some m => Some m
  | None =>
      match t with
      | [] => None
      | _ :: t' => search_from r (S p) t'
      end
  end.

Definition search (r : regex) (path : text) : option mstate :=
  search_from r 0 path.

(** The values of the keyword arguments a view is called with. *)
Inductive kwarg :=
| KStr (s : string)
| KBool (b : bool)
| KTuple (items : list string)
| KText (t : text).

Record ResolverMatch := {
  view : string;
  kwargs : list (string * kwarg);
  url_name : option string
}.

(** [url(regex, view, kwargs, name)] and [url(regex, include(urlconf))]. *)
Inductive entry :=
| url (r : regex) (view : string) (name : option string)
      (default_args : list (string * kwarg))
| include (r : regex) (urlconf : string).

(** [match.groupdict()]. *)
Definition groupdict (m : mstate) : list (string * kwarg) :=
  (λ g, (g.1, KText g.2)) <$> rev (groups m).

(** [d.update(other)]. *)
Fixpoint dict_set (k : string) (v : kwarg) (d : list (string * kwarg))
    : list (string * kwarg) :=
  match d with
  | [] => [(k, v)]
  | (k', v') :: d' =>
      if decide (k' = k) then (k, v) :: d' else (k', v') :: dict_set k v d'
  end.

Definition dict_update (d other : list (string * kwarg)) : list (string * kwarg) :=
  foldl (λ acc kv, dict_set kv.1 kv.2 acc) d other.

(** What the URL configurations pulled in by [include] resolve, given
    the rest of the path. *)
Variable included : string → text → option ResolverMatch.

(** The resolver over a list of patterns: the first pattern that
    matches decides; an included configuration that resolves nothing
    passes the path on to the patterns after it.  None is Resolver404. *)
Fixpoint resolve (patterns : list entry) (path : text) : option ResolverMatch :=
  match patterns with
  | [] => None
  | url r v name default_args :: rest =>
      match search r path with
      | Some m =>
          Some {| view := v;
                  kwargs := dict_update (groupdict m) default_args;
                  url_name := name |}
      | None => resolve rest path
      end
  | include r urlconf :: rest =>
      match search r path with
      | Some m =>
          match included urlconf (drop (pos m) path) with
          | Some found => Some found
          | None => resolve rest path
          end
      | None => resolve rest path
      end
  end.
End matcher.

Definition main_page_regex : regex := Cat Caret Dollar.
Definition accounts_regex : regex := Cat Caret (Lit "accounts/").
Definition club_create_regex : regex := Cat Caret (Cat (Lit "club-create/") Dollar).
Definition grid_regex : regex :=
  Cat Caret
    (Cat (Lit "manufacturer-fk-widget-grid")
       (Cat (Group "action" (Cat (Opt (Lit "/")) (Star Word)))
          (Cat (Lit "/") Dollar))).
Definition jsi18n_regex : regex := Cat Caret (Cat (Lit "jsi18n/") Dollar).

(** The expressions of the patterns the file writes out, in order. *)
Definition own_regexes : list regex :=
  [ main_page_regex; accounts_regex; club_create_regex; grid_regex; jsi18n_regex ].

Definition entry_regex (e : entry) : regex :=
  match e with
  | url r _ _ _ => r
  | include r _ => r
  end.

(** What the group [action] may hold: word characters, after one slash
    or none. *)
Definition action_shape (unicode_word : N → bool) (a : text) : Prop :=
  Forall (λ c, is_word unicode_word c = true) a ∨
  ∃ a', a = 47%N :: a' ∧ Forall (λ c, is_word unicode_word c = true) a'.

(** The end of a path as [$] takes it: nothing, or one newline. *)
Definition line_end (nl : text) : Prop := nl = [] ∨ nl = [10%N].

Definition js_info_dict : list (string * kwarg) :=
  [ ("domain", KStr "djangojs");
    ("packages", KTuple ["djk_sample"]) ].

(** [urlpatterns]; with [settings.DEBUG] the patterns of the static
    files application follow. *)
Definition urlpatterns (DEBUG : bool) (staticfiles_urlpatterns : list entry)
    : list entry :=
  ([ url main_page_regex "club_app.views.main_page" (Some "club_main_page")
       [ ("view_title", KStr "Main page"); ("allow_anonymous", KBool true) ];
     include accounts_regex "django_jinja_knockout._allauth.urls";
     url club_create_regex "club_app.views.ClubCreate" (Some "club_create")
       [ ("view_title", KStr "Add new club") ];
     url grid_regex "club_app.views.ManufacturerFkWidgetGrid"
       (Some "manufacturer_fk_widget_grid")
       [ ("ajax", KBool true) ] ]
   ++ [ url jsi18n_regex "django.views.i18n.javascript_catalog" None js_info_dict ]
   ++ (if DEBUG then staticfiles_urlpatterns else []))%list.
End urls.

(** The unique constraints of the two remaining tables: the triple of
    [Profile.Meta.unique_together] and the company name. *)
Definition unique_profiles_and_manufacturers (d : db.Database) : Prop :=
  unique_on Profile.unique_together (db.profiles d) ∧
  unique_on db.m_company_name (db.manufacturers d).

(** ** Sample data *)

Definition sample_tpl : Tpl :=
  {| format_local_date := λ t,
       match t with
       | ADate _ => "a date"
       | ADateTime _ => "a date and time"
       end;
     reverse := λ name kwargs, Ok ("/" +:+ name +:+ "/") |}.

Definition sample_world : World :=
  {| database := db.empty;
     clock := λ n, 1600000000 + Z.of_nat n;
     reads := 0;
     date_of := λ s, s `div` 86400;
     midnight := λ d, d * 86400 |}.

Definition sample_profile : Profile.t :=
  {| Profile.pk := Some 1; Profile.first_name := "Ann"; Profile.last_name := "Lee";
     Profile.birth_date := ADate 7000 |}.

Definition sample_manufacturer : Manufacturer.t :=
  {| Manufacturer.pk := Some 1; Manufacturer.company_name := "Yonex";
     Manufacturer.direct_shipping := true |}.

(** Club(title="Riverside Badminton", category=RECREATIONAL), not saved. *)
Definition new_club : Club.t :=
  {| Club.pk := None; Club.title := "Riverside Badminton";
     Club.category := Club.CATEGORY_RECREATIONAL;
     Club.foundation_date := None; Club.last_update := None |}.

(** A club of a category that is no declared choice. *)
Definition odd_club : Club.t := Club.set_category 7 new_club.

(** The same club as its first save leaves it. *)
Definition sample_club : Club.t := (Club.save new_club sample_world).1.2.

Definition sample_equipment : Equipment.t :=
  {| Equipment.pk := Some 1; Equipment.club := sample_club;
     Equipment.manufacturer := None; Equipment.inventory_name := "Racket A";
     Equipment.category := Equipment.CATEGORY_RACKET |}.

Definition sample_member : Member.t :=
  {| Member.pk := Some 1; Member.profile := sample_profile; Member.club := sample_club;
     Member.last_visit := ADateTime 1600000500; Member.plays := Member.SPORT_BADMINTON;
     Member.role := Member.ROLE_MEMBER; Member.note := "left-handed";
     Member.is_endorsed := false |}.

(** Requests that fill an empty database with one club, one profile,
    one manufacturer, one piece of equipment and one member. *)
Definition new_profile : Profile.t := Profile.set_pk None sample_profile.
Definition new_manufacturer : Manufacturer.t :=
  Manufacturer.set_pk None sample_manufacturer.
Definition new_equipment : Equipment.t :=
  {| Equipment.pk := None; Equipment.club := sample_club;
     Equipment.manufacturer := Some sample_manufacturer;
     Equipment.inventory_name := "Racket A";
     Equipment.category := Equipment.CATEGORY_RACKET |}.
Definition new_member : Member.t := Member.set_pk None sample_member.

Definition sample_requests : list op :=
  [ SaveClub new_club; SaveProfile new_profile; SaveManufacturer new_manufacturer;
    SaveEquipment new_equipment; SaveMember new_member ].

Definition populated_world : World := foldl run sample_world sample_requests.

(** * Properties *)

(** ** Display mappings *)

Section display.
Context `{Tpl}.

(** [Club.get_str_fields] returns exactly when both dates are set. *)
Lemma Club_get_str_fields_Ok (c : Club.t) (d : odict) :
  Club.get_str_fields c = Ok d ↔
  ∃ fd lu, Club.foundation_date c = Some fd ∧ Club.last_update c = Some lu ∧
    d = [ ("title", PStr (Club.title c));
          ("category", Club.get_category_display c);
          ("foundation_date", PStr (format_local_date fd));
          ("last_update", PStr (format_local_date lu)) ].
Proof.
  unfold Club.get_str_fields.
  destruct (Club.foundation_date c) as [fd|], (Club.last_update c) as [lu|];
    simpl; split.
  - intros [= <-]. by exists fd, lu.
  - intros (? & ? & [= <-] & [= <-] & ->). done.
  - done.
  - intros (? & ? & _ & [=] & _).
  - done.
  - intros (? & ? & [=] & _).
  - done.
  - intros (? & ? & [=] & _).
Qed.

Lemma Club_get_str_fields_stamped (c : Club.t) :
  is_Some (Club.foundation_date c) → is_Some (Club.last_update c) →
  ∃ d, Club.get_str_fields c = Ok d.
Proof.
  intros [fd Hfd] [lu Hlu]. eexists. apply Club_get_str_fields_Ok. eauto.
Qed.

Lemma Equipment_get_str_fields_Ok (e : Equipment.t) (d : odict) :
  Equipment.get_str_fields e = Ok d ↔
  ∃ cd, Club.get_str_fields (Equipment.club e) = Ok cd ∧
    d = ("club", PDict cd) ::
        match Equipment.manufacturer e with
        | Some m => [("manufacturer", PDict (Manufacturer.get_str_fields m))]
        | None => []
        end ++
        [ ("inventory_name", PStr (Equipment.inventory_name e));
          ("category", Equipment.get_category_display e) ].
Proof.
  unfold Equipment.get_str_fields.
  destruct (Club.get_str_fields (Equipment.club e)) as [cd|x]; simpl.
  - split.
    + intros [= <-]. exists cd. split; [done|].
      by destruct (Equipment.manufacturer e).
    + intros (? & [= <-] & ->). by destruct (Equipment.manufacturer e).
  - split; [done|]. by intros (? & [=] & _).
Qed.

Lemma Member_get_str_fields_Ok (m : Member.t) (d : odict) :
  Member.get_str_fields m = Ok d ↔
  ∃ cd, Club.get_str_fields (Member.club m) = Ok cd ∧
    d = [ ("profile", PDict (Profile.get_str_fields (Member.profile m)));
          ("club", PDict cd);
          ("last_visit", PStr (format_local_date (Member.last_visit m)));
          ("plays", Member.get_plays_display m);
          ("role", Member.get_role_display m);
          ("is_endorsed",
           PStr (if Member.is_endorsed m then "endorsed" else "unofficial")) ].
Proof.
  unfold Member.get_str_fields.
  destruct (Club.get_str_fields (Member.club m)) as [cd|x]; simpl.
  - split.
    + intros [= <-]. by exists cd.
    + by intros (? & [= <-] & ->).
  - split; [done|]. by intros (? & [=] & _).
Qed.
End display.

Section display_claims.
Context `{Tpl}.

Lemma get_FIELD_display_no_bool (choices : list (Z * string)) (v : Z) :
  occurs_bool (get_FIELD_display choices v) = false.
Proof. unfold get_FIELD_display. by destruct (choice_label choices v). Qed.

Lemma Club_fields_no_bool (c : Club.t) (d : odict) :
  Club.get_str_fields c = Ok d → occurs_bool (PDict d) = false.
Proof.
  intros (fd & lu & _ & _ & ->)%Club_get_str_fields_Ok. simpl.
  unfold Club.get_category_display. by rewrite get_FIELD_display_no_bool.
Qed.

Lemma Equipment_get_str_fields_stamped (e : Equipment.t) :
  is_Some (Club.foundation_date (Equipment.club e)) →
  is_Some (Club.last_update (Equipment.club e)) →
  ∃ d, Equipment.get_str_fields e = Ok d.
Proof.
  intros Hfd Hlu.
  destruct (Club_get_str_fields_stamped _ Hfd Hlu) as [cd Hcd].
  eexists. apply Equipment_get_str_fields_Ok. eauto.
Qed.

Lemma Member_get_str_fields_stamped (m : Member.t) :
  is_Some (Club.foundation_date (Member.club m)) →
  is_Some (Club.last_update (Member.club m)) →
  ∃ d, Member.get_str_fields m = Ok d.
Proof.
  intros Hfd Hlu.
  destruct (Club_get_str_fields_stamped _ Hfd Hlu) as [cd Hcd].
  eexists. apply Member_get_str_fields_Ok. eauto.
Qed.

(** C5: an Equipment whose manufacturer is None has no "manufacturer"
    key in the mapping [get_str_fields] returns; an Equipment with a
    manufacturer has the key, bound to the manufacturer's own display
    mapping, between "club" and "inventory_name".  The mapping is
    returned whenever the related club carries its two dates. *)
Theorem C5_equipment_manufacturer_key (e : Equipment.t) :
  (is_Some (Club.foundation_date (Equipment.club e)) →
   is_Some (Club.last_update (Equipment.club e)) →
   ∃ d, Equipment.get_str_fields e = Ok d) ∧
  (∀ d, Equipment.get_str_fields e = Ok d →
     match Equipment.manufacturer e with
     | None =>
         ("manufacturer" ∉ keys d) ∧
         od_get "manufacturer" d = Raise KeyError ∧
         keys d = ["club"; "inventory_name"; "category"]
     | Some m =>
         keys d = ["club"; "manufacturer"; "inventory_name"; "category"] ∧
         od_get "manufacturer" d = Ok (PDict (Manufacturer.get_str_fields m))
     end).
Proof.
  split.
  - apply Equipment_get_str_fields_stamped.
  - intros d (cd & _ & ->)%Equipment_get_str_fields_Ok.
    destruct (Equipment.manufacturer e) as [m|]; simpl.
    + done.
    + split; [|done]. unfold keys. simpl.
      rewrite !elem_of_cons, elem_of_nil. by intros [?|[?|[?|?]]].
Qed.

(** C6: the "club" entry of an Equipment's mapping is the whole display
    mapping of its club, not a key; a Member's mapping holds the whole
    mapping of its profile under "profile" and of its club under
    "club"; the nested mappings keep the fields in declaration order.
    Both mappings are returned whenever the club carries its dates. *)
Theorem C6_nested_display_mappings :
  (∀ e : Equipment.t,
     (is_Some (Club.foundation_date (Equipment.club e)) →
      is_Some (Club.last_update (Equipment.club e)) →
      ∃ d, Equipment.get_str_fields e = Ok d) ∧
     ∀ d, Equipment.get_str_fields e = Ok d →
       ∃ cd, Club.get_str_fields (Equipment.club e) = Ok cd ∧
         od_get "club" d = Ok (PDict cd) ∧
         (∀ k, od_get "club" d ≠ Ok (PInt k)) ∧
         keys cd = ["title"; "category"; "foundation_date"; "last_update"]) ∧
  (∀ m : Member.t,
     (is_Some (Club.foundation_date (Member.club m)) →
      is_Some (Club.last_update (Member.club m)) →
      ∃ d, Member.get_str_fields m = Ok d) ∧
     ∀ d, Member.get_str_fields m = Ok d →
       ∃ cd, Club.get_str_fields (Member.club m) = Ok cd ∧
         od_get "profile" d = Ok (PDict (Profile.get_str_fields (Member.profile m))) ∧
         od_get "club" d = Ok (PDict cd) ∧
         keys (Profile.get_str_fields (Member.profile m))
           = ["first_name"; "last_name"; "birth_date"] ∧
         keys cd = ["title"; "category"; "foundation_date"; "last_update"]).
Proof.
  split.
  - intros e. split.
    + apply Equipment_get_str_fields_stamped.
    + intros d (cd & Hcd & ->)%Equipment_get_str_fields_Ok.
      exists cd. split; [done|]. simpl. split; [done|]. split; [done|].
      by apply Club_get_str_fields_Ok in Hcd as (fd & lu & _ & _ & ->).
  - intros m. split.
    + apply Member_get_str_fields_stamped.
    + intros d (cd & Hcd & ->)%Member_get_str_fields_Ok.
      exists cd. split; [done|]. simpl. do 3 (split; [done|]).
      by apply Club_get_str_fields_Ok in Hcd as (fd & lu & _ & _ & ->).
Qed.
(** C8: [direct_shipping] is shown as "Yes (direct)" or "No (remote)",
    [is_endorsed] as "endorsed" or "unofficial", and no display mapping
    of any of the five entities holds a raw boolean, at any depth. *)
Theorem C8_boolean_labels :
  (∀ m : Manufacturer.t,
     od_get "direct_shipping" (Manufacturer.get_str_fields m)
       = Ok (PStr (if Manufacturer.direct_shipping m
                   then "Yes (direct)" else "No (remote)"))) ∧
  (∀ m : Member.t,
     (is_Some (Club.foundation_date (Member.club m)) →
      is_Some (Club.last_update (Member.club m)) →
      ∃ d, Member.get_str_fields m = Ok d) ∧
     ∀ d, Member.get_str_fields m = Ok d →
       od_get "is_endorsed" d
         = Ok (PStr (if Member.is_endorsed m then "endorsed" else "unofficial"))) ∧
  (∀ p : Profile.t, occurs_bool (PDict (Profile.get_str_fields p)) = false) ∧
  (∀ m : Manufacturer.t, occurs_bool (PDict (Manufacturer.get_str_fields m)) = false) ∧
  (∀ (c : Club.t) d, Club.get_str_fields c = Ok d → occurs_bool (PDict d) = false) ∧
  (∀ (e : Equipment.t) d,
     Equipment.get_str_fields e = Ok d → occurs_bool (PDict d) = false) ∧
  (∀ (m : Member.t) d,
     Member.get_str_fields m = Ok d → occurs_bool (PDict d) = false).
Proof.
  repeat split.
  - apply Member_get_str_fields_stamped.
  - by intros d (cd & _ & ->)%Member_get_str_fields_Ok.
  - apply Club_fields_no_bool.
  - intros e d (cd & Hcd%Club_fields_no_bool & ->)%Equipment_get_str_fields_Ok.
    simpl in *. rewrite Hcd. unfold Equipment.get_category_display.
    destruct (Equipment.manufacturer e); simpl;
      by rewrite get_FIELD_display_no_bool.
  - intros m d (cd & Hcd%Club_fields_no_bool & ->)%Member_get_str_fields_Ok.
    simpl in *. rewrite Hcd.
    unfold Member.get_plays_display, Member.get_role_display.
    by rewrite !get_FIELD_display_no_bool.
Qed.

(** C10: the mapping [Member.get_str_fields] returns has the keys
    profile, club, last_visit, plays, role, is_endorsed, in this order
    and no other; the note is no part of it: the mapping, the summary
    string and the canonical reference are the same whatever the note
    is. *)
Theorem C10_member_keys_without_note (m : Member.t) :
  (is_Some (Club.foundation_date (Member.club m)) →
   is_Some (Club.last_update (Member.club m)) →
   ∃ d, Member.get_str_fields m = Ok d) ∧
  (∀ d, Member.get_str_fields m = Ok d →
     keys d = ["profile"; "club"; "last_visit"; "plays"; "role"; "is_endorsed"] ∧
     ("note" ∉ keys d)) ∧
  (∀ s : string,
     Member.get_str_fields (Member.set_note s m) = Member.get_str_fields m ∧
     Member.__str__ (Member.set_note s m) = Member.__str__ m ∧
     Member.get_absolute_url (Member.set_note s m) = Member.get_absolute_url m).
Proof.
  split; [apply Member_get_str_fields_stamped|]. split.
  - intros d (cd & _ & ->)%Member_get_str_fields_Ok. split; [done|].
    unfold keys. simpl. rewrite !elem_of_cons, elem_of_nil.
    by intros [?|[?|[?|[?|[?|[?|?]]]]]].
  - intros s.
    assert (Member.get_str_fields (Member.set_note s m) = Member.get_str_fields m)
      as Hd by done.
    split; [done|]. split.
    + unfold Member.__str__. by rewrite Hd.
    + unfold Member.get_absolute_url. by rewrite Hd.
Qed.

(** A mapping without nested mappings is its own flattening. *)
Definition is_flat (v : pyval) : bool :=
  match v with
  | PDict _ => false
  | _ => true
  end.

Lemma od_traverse_flat (separator : string) (fmt : option string) (d : odict) :
  forallb (λ kv, is_flat kv.2) d = true →
  od_traverse (flatten_value separator fmt) d = Ok d.
Proof.
  induction d as [|[k v] d IH]; [done|]. simpl.
  intros [Hv Hd]%andb_prop. rewrite (IH Hd).
  by destruct v.
Qed.

Lemma str_dict_flat (separator : string) (fmt : option string) (d : odict) :
  forallb (λ kv, is_flat kv.2) d = true →
  str_dict d separator fmt = str_join separator (values d).
Proof.
  intros Hd. unfold str_dict, flatten_dict. by rewrite od_traverse_flat.
Qed.

Lemma get_FIELD_display_flat (choices : list (Z * string)) (v : Z) :
  is_flat (get_FIELD_display choices v) = true.
Proof. unfold get_FIELD_display. by destruct (choice_label choices v). Qed.

(** [Club.__str__] is the summary [str_dict] makes of the club's
    mapping. *)
Lemma Club_str_is_str_dict (c : Club.t) (cd : odict) :
  Club.get_str_fields c = Ok cd →
  Club.__str__ c = str_dict cd sep None.
Proof.
  intros Hcd. unfold Club.__str__. rewrite Hcd. simpl.
  apply Club_get_str_fields_Ok in Hcd as (fd & lu & _ & _ & ->).
  rewrite str_dict_flat; [done|]. simpl.
  unfold Club.get_category_display. by rewrite get_FIELD_display_flat.
Qed.

Lemma Profile_str_dict (p : Profile.t) :
  str_dict (Profile.get_str_fields p) sep None
  = Ok (Profile.first_name p +:+ sep +:+ Profile.last_name p +:+ sep +:+
        format_local_date (Profile.birth_date p)).
Proof. by rewrite str_dict_flat. Qed.

Lemma flatten_value_flat (separator : string) (fmt : option string) (v : pyval) :
  is_flat v = true → flatten_value separator fmt v = Ok v.
Proof. by destruct v. Qed.

(** The flattening of a Member's mapping: the two nested mappings become
    their summaries, the other entries stay. *)
Lemma Member_flatten_dict (pd cd : odict) (lv pl ro en : pyval) :
  forallb (λ kv, is_flat kv.2) pd = true →
  forallb (λ kv, is_flat kv.2) cd = true →
  is_flat lv = true → is_flat pl = true → is_flat ro = true → is_flat en = true →
  flatten_dict
    [ ("profile", PDict pd); ("club", PDict cd); ("last_visit", lv);
      ("plays", pl); ("role", ro); ("is_endorsed", en) ] sep None
  = (p ← str_join sep (values pd);
     c ← str_join sep (values cd);
     Ok [ ("profile", PStr p); ("club", PStr c); ("last_visit", lv);
          ("plays", pl); ("role", ro); ("is_endorsed", en) ]).
Proof.
  intros Hpd Hcd Hlv Hpl Hro Hen. unfold flatten_dict.
  cbn [od_traverse flatten_value].
  rewrite !od_traverse_flat by done.
  rewrite !flatten_value_flat by done.
  cbn [mbind result_bind].
  destruct (str_join sep (values pd)) as [p|x]; simpl; [|done].
  by destruct (str_join sep (values cd)).
Qed.

(** When [Member.get_absolute_url] returns, and what. *)
Lemma Member_get_absolute_url_Ok (m : Member.t) (u : Str) :
  Member.get_absolute_url m = Ok u ↔
  ∃ r fd lu label,
    reverse "member_detail" [("member_id", Member.pk m)] = Ok r ∧
    Club.foundation_date (Member.club m) = Some fd ∧
    Club.last_update (Member.club m) = Some lu ∧
    choice_label Club.CATEGORIES (Club.category (Member.club m)) = Some label ∧
    u = {| url := r;
           text :=
             (Profile.first_name (Member.profile m) +:+ sep +:+
              Profile.last_name (Member.profile m) +:+ sep +:+
              format_local_date (Profile.birth_date (Member.profile m)))
             +:+ " / " +:+
             (Club.title (Member.club m) +:+ sep +:+ label +:+ sep +:+
              format_local_date fd +:+ sep +:+ format_local_date lu) |}.
Proof.
  unfold Member.get_absolute_url.
  remember (choice_label Club.CATEGORIES (Club.category (Member.club m)))
    as lbl eqn:Hlbl.
  destruct (reverse "member_detail" [("member_id", Member.pk m)]) as [r|x];
    cbn [mbind result_bind]; [|split; [done|by intros (?&?&?&?&[=]&_)]].
  destruct (Member.get_str_fields m) as [d|x] eqn:Hd; cbn [mbind result_bind].
  - apply Member_get_str_fields_Ok in Hd as (cd & Hcd & ->).
    apply Club_get_str_fields_Ok in Hcd as (fd & lu & Hfd & Hlu & ->).
    rewrite Member_flatten_dict; try done.
    + unfold Club.get_category_display, get_FIELD_display.
      rewrite <- Hlbl. destruct lbl as [label|]; simpl.
      * split.
        -- intros [= <-]. by exists r, fd, lu, label.
        -- intros (?&?&?&?&[= <-]&Hfd'&Hlu'&[= <-]&->).
           rewrite Hfd in Hfd'. rewrite Hlu in Hlu'.
           by injection Hfd' as <-; injection Hlu' as <-.
      * split; [done|]. by intros (?&?&?&?&_&_&_&[=]&_).
    + simpl. unfold Club.get_category_display.
      by rewrite get_FIELD_display_flat.
    + apply get_FIELD_display_flat.
    + apply get_FIELD_display_flat.
  - split; [done|]. intros (r' & fd & lu & label & _ & Hfd & Hlu & _).
    destruct (Member_get_str_fields_stamped m) as [d Hd']; [by eexists..|].
    congruence.
Qed.


Lemma string_length_app (s1 s2 : string) :
  String.length (s1 +:+ s2) = (String.length s1 + String.length s2)%nat.
Proof.
  induction s1 as [|a s1 IH]; [done|].
  change (S (String.length (s1 +:+ s2)) = S (String.length s1 + String.length s2)).
  by rewrite IH.
Qed.

End display_claims.

(** ** Saving a club *)

Lemma Model_save_instance (c : Club.t) (w : World) :
  Club.foundation_date (Club.Model_save c w).1.2 = Club.foundation_date c ∧
  Club.last_update (Club.Model_save c w).1.2 = Club.last_update c ∧
  Club.title (Club.Model_save c w).1.2 = Club.title c ∧
  Club.category (Club.Model_save c w).1.2 = Club.category c ∧
  reads (Club.Model_save c w).2 = reads w ∧
  clock (Club.Model_save c w).2 = clock w ∧
  date_of (Club.Model_save c w).2 = date_of w ∧
  midnight (Club.Model_save c w).2 = midnight w.
Proof.
  unfold Club.Model_save.
  destruct (Club.to_row w c) as [row|x]; [|done].
  by destruct (db.unique_ok _ _ _ _).
Qed.

(** A save that succeeds leaves the object with a key and the row made
    of the object under that key. *)
Lemma Model_save_Ok (c : Club.t) (w : World) :
  (Club.Model_save c w).1.1 = Ok () →
  ∃ k row, Club.pk (Club.Model_save c w).1.2 = Some k ∧
    Club.to_row w c = Ok row ∧
    db.clubs (database (Club.Model_save c w).2) !! k = Some row.
Proof.
  unfold Club.Model_save.
  destruct (Club.to_row w c) as [row|x]; [|done].
  destruct (db.unique_ok _ _ _ _); [|done].
  intros _. eexists _, row. simpl. split; [done|]. split; [done|].
  apply lookup_insert_eq.
Qed.

(** A save that raises changes nothing in the database. *)
Lemma Model_save_Raise (c : Club.t) (w : World) (x : exn) :
  (Club.Model_save c w).1.1 = Raise x →
  (Club.Model_save c w).2 = w ∧ (Club.Model_save c w).1.2 = c.
Proof.
  unfold Club.Model_save.
  destruct (Club.to_row w c) as [row|y]; [|done].
  by destruct (db.unique_ok _ _ _ _).
Qed.

Lemma Model_save_pk (c : Club.t) (w : World) (k : Z) :
  Club.pk c = Some k → Club.pk (Club.Model_save c w).1.2 = Some k.
Proof.
  intros Hk. unfold Club.Model_save.
  destruct (Club.to_row w c) as [row|x]; [|done].
  destruct (db.unique_ok _ _ _ _); [|done]. simpl. by rewrite Hk.
Qed.

(** The save of an object that has a key is [Model.save] and nothing
    else. *)
Lemma Club_save_persisted (c : Club.t) (w : World) (k : Z) :
  Club.pk c = Some k → Club.save c w = Club.Model_save c w.
Proof. intros Hk. unfold Club.save. by rewrite Hk. Qed.

Lemma apply_edit_frame (e : edit) (c : Club.t) :
  Club.pk (apply_edit e c) = Club.pk c ∧
  Club.foundation_date (apply_edit e c) = Club.foundation_date c ∧
  Club.last_update (apply_edit e c) = Club.last_update c.
Proof. by destruct e. Qed.

Lemma to_row_dates (c : Club.t) (w : World) (row : db.ClubRow) :
  Club.to_row w c = Ok row →
  ∃ fd lu, Club.foundation_date c = Some fd ∧ Club.last_update c = Some lu ∧
    db.c_foundation_date row = DateField_to_python w fd ∧
    db.c_last_update row = DateTimeField_to_python w lu ∧
    db.c_title row = Club.title c ∧ db.c_category row = Club.category c.
Proof.
  unfold Club.to_row.
  destruct (Club.foundation_date c) as [fd|], (Club.last_update c) as [lu|];
    try done.
  intros [= <-]. by exists fd, lu.
Qed.

(** The row of a saved club keeps its two dates through one more save. *)
Lemma Model_save_row_dates (c : Club.t) (w : World) (k : Z) (row : db.ClubRow) :
  Club.pk c = Some k →
  db.clubs (database w) !! k = Some row →
  (∀ fd, Club.foundation_date c = Some fd →
         DateField_to_python w fd = db.c_foundation_date row) →
  (∀ lu, Club.last_update c = Some lu →
         DateTimeField_to_python w lu = db.c_last_update row) →
  ∃ row', db.clubs (database (Club.Model_save c w).2) !! k = Some row' ∧
    db.c_foundation_date row' = db.c_foundation_date row ∧
    db.c_last_update row' = db.c_last_update row.
Proof.
  intros Hk Hrow Hfd Hlu.
  destruct ((Club.Model_save c w).1.1) as [[]|x] eqn:Hres.
  - destruct (Model_save_Ok c w Hres) as (k' & row' & Hk' & Hto & Hget).
    rewrite (Model_save_pk c w k Hk) in Hk'. injection Hk' as <-.
    exists row'. split; [done|].
    destruct (to_row_dates c w row' Hto) as (fd & lu & Hf & Hl & -> & -> & _).
    by rewrite (Hfd _ Hf), (Hlu _ Hl).
  - destruct (Model_save_Raise c w x Hres) as [-> _]. by exists row.
Qed.

Lemma edits_and_saves_frame (es : list edit) (c : Club.t) (w : World) (k : Z) :
  Club.pk c = Some k →
  Club.pk (foldl edit_and_save (c, w) es).1 = Some k ∧
  Club.foundation_date (foldl edit_and_save (c, w) es).1 = Club.foundation_date c ∧
  Club.last_update (foldl edit_and_save (c, w) es).1 = Club.last_update c ∧
  reads (foldl edit_and_save (c, w) es).2 = reads w ∧
  ∀ row, db.clubs (database w) !! k = Some row →
    (∀ fd, Club.foundation_date c = Some fd →
           DateField_to_python w fd = db.c_foundation_date row) →
    (∀ lu, Club.last_update c = Some lu →
           DateTimeField_to_python w lu = db.c_last_update row) →
    ∃ row', db.clubs (database (foldl edit_and_save (c, w) es).2) !! k = Some row' ∧
      db.c_foundation_date row' = db.c_foundation_date row ∧
      db.c_last_update row' = db.c_last_update row.
Proof.
  revert c w. induction es as [|e es IH]; intros c w Hk.
  { simpl. repeat split; try done. intros row Hrow _ _. by exists row. }
  destruct (apply_edit_frame e c) as (Hpk & Hfd & Hlu).
  assert (Club.pk (apply_edit e c) = Some k) as Hk1 by by rewrite Hpk.
  assert (foldl edit_and_save (c, w) (e :: es)
          = foldl edit_and_save
              ((Club.Model_save (apply_edit e c) w).1.2,
               (Club.Model_save (apply_edit e c) w).2) es) as ->.
  { cbn [foldl]. f_equal. unfold edit_and_save. cbn [fst snd].
    by rewrite (Club_save_persisted _ w k Hk1). }
  destruct (Model_save_instance (apply_edit e c) w)
    as (Hf & Hl & _ & _ & Hr & _ & Hd & Hm).
  pose proof (Model_save_pk _ w k Hk1) as Hk2.
  destruct (IH _ ((Club.Model_save (apply_edit e c) w).2) Hk2)
    as (IH1 & IH2 & IH3 & IH4 & IH5).
  rewrite IH2, IH3, IH4, Hf, Hl, Hr, Hfd, Hlu.
  repeat split; try done.
  intros row Hrow Hcf Hcl.
  destruct (Model_save_row_dates (apply_edit e c) w k row Hk1 Hrow)
    as (row1 & Hrow1 & Hf1 & Hl1).
  { intros fd Hfd'. apply Hcf. by rewrite <- Hfd. }
  { intros lu Hlu'. apply Hcl. by rewrite <- Hlu. }
  destruct (IH5 row1 Hrow1) as (row' & Hrow' & Hf' & Hl').
  { intros fd Hfd'. rewrite Hf1. unfold DateField_to_python. rewrite Hd.
    apply Hcf. by rewrite <- Hfd, <- Hf. }
  { intros lu Hlu'. rewrite Hl1. unfold DateTimeField_to_python. rewrite Hm.
    apply Hcl. by rewrite <- Hlu, <- Hl. }
  exists row'. split; [done|]. by rewrite Hf', Hl', Hf1, Hl1.
Qed.

(** C1: the first save of a club (no primary key yet) sets
    [foundation_date] to the time read then if it was None, keeps it
    otherwise, and sets [last_update] to the time read next; a save that
    succeeds stores these two values, as the date and the datetime
    column hold them.  The save of a club that has a primary key changes
    neither attribute and does not read the clock, and through any
    number of edits and saves the attributes and the two dates of the
    stored row stay as they are. *)
Theorem C1_club_save_timestamps :
  (∀ (c : Club.t) (w : World), Club.pk c = None →
     (Club.foundation_date c = None →
        Club.foundation_date (Club.save c w).1.2
          = Some (ADateTime (clock w (reads w))) ∧
        Club.last_update (Club.save c w).1.2
          = Some (ADateTime (clock w (S (reads w))))) ∧
     (∀ d, Club.foundation_date c = Some d →
        Club.foundation_date (Club.save c w).1.2 = Some d ∧
        Club.last_update (Club.save c w).1.2
          = Some (ADateTime (clock w (reads w)))) ∧
     ((Club.save c w).1.1 = Ok () →
        ∃ k row fd lu,
          Club.pk (Club.save c w).1.2 = Some k ∧
          db.clubs (database (Club.save c w).2) !! k = Some row ∧
          Club.foundation_date (Club.save c w).1.2 = Some fd ∧
          Club.last_update (Club.save c w).1.2 = Some lu ∧
          db.c_foundation_date row = DateField_to_python w fd ∧
          db.c_last_update row = lu)) ∧
  (∀ (c : Club.t) (w : World) (k : Z), Club.pk c = Some k →
     Club.pk (Club.save c w).1.2 = Some k ∧
     Club.foundation_date (Club.save c w).1.2 = Club.foundation_date c ∧
     Club.last_update (Club.save c w).1.2 = Club.last_update c ∧
     reads (Club.save c w).2 = reads w) ∧
  (∀ (es : list edit) (c : Club.t) (w : World) (k : Z), Club.pk c = Some k →
     Club.foundation_date (foldl edit_and_save (c, w) es).1 = Club.foundation_date c ∧
     Club.last_update (foldl edit_and_save (c, w) es).1 = Club.last_update c ∧
     reads (foldl edit_and_save (c, w) es).2 = reads w ∧
     ∀ row, db.clubs (database w) !! k = Some row →
       (∀ fd, Club.foundation_date c = Some fd →
              DateField_to_python w fd = db.c_foundation_date row) →
       (∀ lu, Club.last_update c = Some lu →
              DateTimeField_to_python w lu = db.c_last_update row) →
       ∃ row', db.clubs (database (foldl edit_and_save (c, w) es).2) !! k = Some row' ∧
         db.c_foundation_date row' = db.c_foundation_date row ∧
         db.c_last_update row' = db.c_last_update row).
Proof.
  split; [|split].
  - intros c w Hpk. unfold Club.save. rewrite Hpk.
    destruct (Club.foundation_date c) as [d|] eqn:Hfd; cbn -[Club.Model_save].
    + split; [done|]. split.
      * intros ? [= <-].
        match goal with |- context [Club.Model_save ?c' ?w'] =>
          destruct (Model_save_instance c' w') as (-> & -> & _) end.
        simpl. by rewrite Hfd.
      * intros Hres.
        destruct (Model_save_Ok _ _ Hres) as (k & row & Hk & Hto & Hget).
        destruct (to_row_dates _ _ _ Hto) as (fd & lu & Hf & Hl & Hrf & Hrl & _).
        simpl in Hf, Hl. injection Hl as <-.
        match goal with |- context [Club.Model_save ?c' ?w'] =>
          destruct (Model_save_instance c' w') as (Hf' & Hl' & _) end.
        eexists k, row, fd, _. rewrite Hf', Hl'. by repeat split.
    + split.
      * intros _.
        match goal with |- context [Club.Model_save ?c' ?w'] =>
          destruct (Model_save_instance c' w') as (-> & -> & _) end.
        done.
      * split; [done|]. intros Hres.
        destruct (Model_save_Ok _ _ Hres) as (k & row & Hk & Hto & Hget).
        destruct (to_row_dates _ _ _ Hto) as (fd & lu & Hf & Hl & Hrf & Hrl & _).
        simpl in Hf, Hl. injection Hl as <-. injection Hf as <-.
        match goal with |- context [Club.Model_save ?c' ?w'] =>
          destruct (Model_save_instance c' w') as (Hf' & Hl' & _) end.
        eexists k, row, _, _. rewrite Hf', Hl'. by repeat split.
  - intros c w k Hk. rewrite (Club_save_persisted c w k Hk).
    destruct (Model_save_instance c w) as (-> & -> & _ & _ & -> & _).
    by rewrite (Model_save_pk c w k Hk).
  - intros es c w k Hk.
    destruct (edits_and_saves_frame es c w k Hk) as (_ & H1 & H2 & H3 & H4).
    done.
Qed.

(** ** Choices and save *)

(** C7, as stated, fails: a club whose category is none of the declared
    choices is saved, and the row is stored with that category. *)
Lemma C7_out_of_set_category_is_stored :
  choice_label Club.CATEGORIES (Club.category odd_club) = None ∧
  (Club.save odd_club sample_world).1.1 = Ok () ∧
  db.c_category <$> db.clubs (database (Club.save odd_club sample_world).2) !! 1
    = Some 7.
Proof. by vm_compute. Qed.

Lemma Club_save_category (c : Club.t) (w : World) (v : Z) :
  (Club.save (Club.set_category v c) w).1.1 = (Club.save c w).1.1.
Proof.
  unfold Club.save, Club.Model_save, Club.to_row, db.unique_ok.
  destruct c as [[k|] title cat [fd|] [lu|]]; simpl;
    try done; by case_bool_decide.
Qed.

Lemma Club_save_Ok (c : Club.t) (w : World) :
  (Club.save c w).1.1 = Ok () →
  ∃ k row, Club.pk (Club.save c w).1.2 = Some k ∧
    db.clubs (database (Club.save c w).2) !! k = Some row ∧
    db.c_title row = Club.title c ∧ db.c_category row = Club.category c.
Proof.
  unfold Club.save.
  destruct c as [[k|] title cat [fd|] lu]; cbn -[Club.Model_save];
    intros Hres;
    destruct (Model_save_Ok _ _ Hres) as (k' & row & Hk & Hto & Hget);
    destruct (to_row_dates _ _ _ Hto) as (? & ? & _ & _ & _ & _ & Ht & Hc);
    by exists k', row.
Qed.

Lemma Equipment_save_category (e : Equipment.t) (w : World) (v : Z) :
  (Equipment.save (Equipment.set_category v e) w).1.1 = (Equipment.save e w).1.1.
Proof.
  unfold Equipment.save, Equipment.to_row.
  destruct e as [pk c [m|] name cat]; simpl;
    destruct (Club.pk c); try done; try destruct (Manufacturer.pk m); try done;
    simpl; by destruct (_ && _).
Qed.

Lemma Equipment_save_Ok (e : Equipment.t) (w : World) :
  (Equipment.save e w).1.1 = Ok () →
  ∃ k row, Equipment.pk (Equipment.save e w).1.2 = Some k ∧
    db.equipments (database (Equipment.save e w).2) !! k = Some row ∧
    Equipment.to_row e = Ok row ∧
    db.e_category row = Equipment.category e.
Proof.
  unfold Equipment.save.
  destruct (Equipment.to_row e) as [row|x] eqn:Hto; [|done].
  destruct (_ && _); [|done]. intros _. simpl.
  eexists _, row. split; [done|]. split; [apply lookup_insert_eq|].
  split; [done|].
  unfold Equipment.to_row in Hto.
  destruct (Club.pk (Equipment.club e)); [|done].
  destruct (Equipment.manufacturer e) as [m|].
  - destruct (Manufacturer.pk m); [|done]. by injection Hto as <-.
  - by injection Hto as <-.
Qed.

Lemma Member_save_plays_role (m : Member.t) (w : World) (v : Z) :
  (Member.save (Member.set_plays v m) w).1.1 = (Member.save m w).1.1 ∧
  (Member.save (Member.set_role v m) w).1.1 = (Member.save m w).1.1.
Proof.
  unfold Member.save, Member.to_row, db.unique_ok.
  destruct m as [pk p c lv pl ro note en]; simpl.
  destruct (Profile.pk p), (Club.pk c); try done; simpl.
  unfold Member.unique_together; simpl.
  split; destruct (_ && _); try done; by case_bool_decide.
Qed.

Lemma Member_save_Ok (m : Member.t) (w : World) :
  (Member.save m w).1.1 = Ok () →
  ∃ k row, Member.pk (Member.save m w).1.2 = Some k ∧
    db.members (database (Member.save m w).2) !! k = Some row ∧
    Member.to_row w m = Ok row ∧
    db.r_plays row = Member.plays m ∧ db.r_role row = Member.role m.
Proof.
  unfold Member.save.
  destruct (Member.to_row w m) as [row|x] eqn:Hto; [|done].
  destruct (_ && _); [|done].
  destruct (db.unique_ok _ _ _ _); [|done]. intros _. simpl.
  eexists _, row. split; [done|]. split; [apply lookup_insert_eq|].
  split; [done|].
  unfold Member.to_row in Hto.
  destruct (Profile.pk (Member.profile m)), (Club.pk (Member.club m));
    try done.
  by injection Hto as <-.
Qed.

Lemma get_FIELD_display_fallback (choices : list (Z * string)) (v : Z) :
  choice_label choices v = None → get_FIELD_display choices v = PInt v.
Proof. unfold get_FIELD_display. by intros ->. Qed.

(** C7, amended: no save consults the choices of a field.  Whether a
    save succeeds does not depend on the value of [Club.category],
    [Equipment.category], [Member.plays] or [Member.role]; a save that
    succeeds stores the value as it is, declared choice or not; and the
    display lookup of a value that is no declared choice returns the
    value itself. *)
Theorem C7_choices_not_checked_by_save :
  (∀ (c : Club.t) (w : World),
     (∀ v, (Club.save (Club.set_category v c) w).1.1 = (Club.save c w).1.1) ∧
     ((Club.save c w).1.1 = Ok () →
        ∃ k row, Club.pk (Club.save c w).1.2 = Some k ∧
          db.clubs (database (Club.save c w).2) !! k = Some row ∧
          db.c_category row = Club.category c) ∧
     (choice_label Club.CATEGORIES (Club.category c) = None →
        Club.get_category_display c = PInt (Club.category c))) ∧
  (∀ (e : Equipment.t) (w : World),
     (∀ v, (Equipment.save (Equipment.set_category v e) w).1.1
           = (Equipment.save e w).1.1) ∧
     ((Equipment.save e w).1.1 = Ok () →
        ∃ k row, Equipment.pk (Equipment.save e w).1.2 = Some k ∧
          db.equipments (database (Equipment.save e w).2) !! k = Some row ∧
          db.e_category row = Equipment.category e) ∧
     (choice_label Equipment.CATEGORIES (Equipment.category e) = None →
        Equipment.get_category_display e = PInt (Equipment.category e))) ∧
  (∀ (m : Member.t) (w : World),
     (∀ v, (Member.save (Member.set_plays v m) w).1.1 = (Member.save m w).1.1 ∧
           (Member.save (Member.set_role v m) w).1.1 = (Member.save m w).1.1) ∧
     ((Member.save m w).1.1 = Ok () →
        ∃ k row, Member.pk (Member.save m w).1.2 = Some k ∧
          db.members (database (Member.save m w).2) !! k = Some row ∧
          db.r_plays row = Member.plays m ∧ db.r_role row = Member.role m) ∧
     (choice_label Member.SPORTS (Member.plays m) = None →
        Member.get_plays_display m = PInt (Member.plays m)) ∧
     (choice_label Member.ROLES (Member.role m) = None →
        Member.get_role_display m = PInt (Member.role m))).
Proof.
  split; [|split].
  - intros c w. split; [intros v; apply Club_save_category|]. split.
    + intros (k & row & ? & ? & _ & ?)%Club_save_Ok. by exists k, row.
    + apply get_FIELD_display_fallback.
  - intros e w. split; [intros v; apply Equipment_save_category|]. split.
    + intros (k & row & ? & ? & _ & ?)%Equipment_save_Ok. by exists k, row.
    + apply get_FIELD_display_fallback.
  - intros m w. split; [intros v; apply Member_save_plays_role|]. split.
    + intros (k & row & ? & ? & _ & ? & ?)%Member_save_Ok. by exists k, row.
    + split; apply get_FIELD_display_fallback.
Qed.

(** ** The tables *)

Lemma foldr_max_ge (l : list Z) (x : Z) : x ∈ l → (x ≤ foldr Z.max 0 l)%Z.
Proof.
  induction l as [|y l IH]; [by intros ?%elem_of_nil|].
  intros [->|Hx]%elem_of_cons; simpl; [lia|]. specialize (IH Hx). lia.
Qed.

(** The key of a new row is not in use. *)
Lemma fresh_pk_fresh {V} (t : gmap Z V) : t !! db.fresh_pk t = None.
Proof.
  destruct (t !! db.fresh_pk t) as [v|] eqn:Hv; [|done]. exfalso.
  apply elem_of_map_to_list in Hv.
  assert (db.fresh_pk t ∈ (map_to_list t).*1) as Hin.
  { apply list_elem_of_fmap. by exists (db.fresh_pk t, v). }
  apply foldr_max_ge in Hin. unfold db.fresh_pk in Hin at 1. lia.
Qed.

Lemma unique_ok_true {V K} `{EqDecision K} (key : V → K) (k : Z) (row : V)
    (t : gmap Z V) :
  db.unique_ok key k row t = true ↔
  ∀ k' r, t !! k' = Some r → k' = k ∨ key r ≠ key row.
Proof. unfold db.unique_ok. by rewrite bool_decide_eq_true. Qed.

Lemma unique_ok_false {V K} `{EqDecision K} (key : V → K) (k k' : Z) (row r : V)
    (t : gmap Z V) :
  t !! k' = Some r → k' ≠ k → key r = key row →
  db.unique_ok key k row t = false.
Proof.
  intros Hr Hk Hkey. apply not_true_is_false. intros Hok.
  destruct (proj1 (unique_ok_true key k row t) Hok k' r Hr); done.
Qed.

Lemma unique_on_insert {V K} `{EqDecision K} (key : V → K) (k : Z) (row : V)
    (t : gmap Z V) :
  unique_on key t → db.unique_ok key k row t = true →
  unique_on key (<[k := row]> t).
Proof.
  intros Hu Hok' k1 k2 r1 r2.
  pose proof (proj1 (unique_ok_true key k row t) Hok') as Hok.
  rewrite !lookup_insert_Some.
  intros [[<- <-]|[Hn1 H1]] [[<- <-]|[Hn2 H2]] Hne; try done.
  - destruct (Hok k2 r2 H2) as [->|?]; [done|]. by apply not_eq_sym.
  - destruct (Hok k1 r1 H1) as [->|?]; done.
  - by apply (Hu k1 k2).
Qed.

Lemma unique_on_sub {V K} (key : V → K) (t t' : gmap Z V) :
  (∀ k r, t' !! k = Some r → t !! k = Some r) →
  unique_on key t → unique_on key t'.
Proof. intros Hsub Hu k1 k2 r1 r2 H1 H2. apply Hu; by apply Hsub. Qed.

Lemma fk_ok_true {V} (ref : option Z) (t : gmap Z V) :
  db.fk_ok ref t = true ↔ ∀ k, ref = Some k → is_Some (t !! k).
Proof.
  destruct ref as [k|]; simpl.
  - rewrite bool_decide_eq_true. split; [by intros ? ? [= <-]|eauto].
  - split; [by intros|done].
Qed.

(** What the declared [on_delete] of each foreign key does. *)
Lemma cascade_lookup {V} (fk : db.ForeignKey) (ref : V → option Z)
    (clear : V → V) (k : Z) (t : gmap Z V) :
  db.on_delete fk = db.CASCADE →
  ∃ t', db.apply_on_delete fk ref clear k t = Ok t' ∧
    ∀ j r, t' !! j = Some r ↔ t !! j = Some r ∧ ref r ≠ Some k.
Proof.
  intros Hfk. unfold db.apply_on_delete. rewrite Hfk.
  eexists. split; [done|]. intros j r. by rewrite map_lookup_filter_Some.
Qed.

(** ** Consistency is kept by every request *)

Lemma consistent_empty : consistent db.empty.
Proof.
  unfold consistent, unique_on, fk_intact. simpl.
  split; [|split; [|split]]; intros *; by rewrite lookup_empty.
Qed.

Ltac split_consistent :=
  split; [|split; [|split]]; simpl.

Lemma consistent_save_profile (d : db.Database) (k : Z) (row : db.ProfileRow) :
  consistent d → consistent (db.set_profiles (<[k := row]> (db.profiles d)) d).
Proof.
  intros (Hc & Hm & He & Hr). split_consistent; try done.
  intros j r Hj. destruct (Hr j r Hj) as [Hp Hx]. split; [|done].
  apply lookup_insert_is_Some'. by right.
Qed.

Lemma consistent_save_manufacturer (d : db.Database) (k : Z)
    (row : db.ManufacturerRow) :
  consistent d →
  consistent (db.set_manufacturers (<[k := row]> (db.manufacturers d)) d).
Proof.
  intros (Hc & Hm & He & Hr). split_consistent; try done.
  intros j r Hj. destruct (He j r Hj) as [Hx Hy]. split; [done|].
  intros m Hmf. apply lookup_insert_is_Some'. right. by apply Hy.
Qed.

Lemma consistent_save_club (d : db.Database) (k : Z) (row : db.ClubRow) :
  consistent d → db.unique_ok db.c_title k row (db.clubs d) = true →
  consistent (db.set_clubs (<[k := row]> (db.clubs d)) d).
Proof.
  intros (Hc & Hm & He & Hr) Hok. split_consistent.
  - by apply unique_on_insert.
  - done.
  - intros j r Hj. destruct (He j r Hj) as [Hx Hy]. split; [|done].
    apply lookup_insert_is_Some'. by right.
  - intros j r Hj. destruct (Hr j r Hj) as [Hx Hy]. split; [done|].
    apply lookup_insert_is_Some'. by right.
Qed.

Lemma consistent_save_equipment (d : db.Database) (k : Z) (row : db.EquipmentRow) :
  consistent d →
  db.fk_ok (Some (db.e_club_id row)) (db.clubs d)
    && db.fk_ok (db.e_manufacturer_id row) (db.manufacturers d) = true →
  consistent (db.set_equipments (<[k := row]> (db.equipments d)) d).
Proof.
  intros (Hc & Hm & He & Hr) [Hfc Hfm]%andb_prop.
  split_consistent; try done.
  intros j r [[_ <-]|[_ Hj]]%lookup_insert_Some; [|by apply (He j)].
  split.
  - by apply (proj1 (fk_ok_true _ _) Hfc).
  - apply (proj1 (fk_ok_true _ _) Hfm).
Qed.

Lemma consistent_save_member (d : db.Database) (k : Z) (row : db.MemberRow) :
  consistent d →
  db.fk_ok (Some (db.r_profile_id row)) (db.profiles d)
    && db.fk_ok (Some (db.r_club_id row)) (db.clubs d) = true →
  db.unique_ok Member.unique_together k row (db.members d) = true →
  consistent (db.set_members (<[k := row]> (db.members d)) d).
Proof.
  intros (Hc & Hm & He & Hr) [Hfp Hfc]%andb_prop Hok.
  split_consistent; try done.
  - by apply unique_on_insert.
  - intros j r [[_ <-]|[_ Hj]]%lookup_insert_Some; [|by apply (Hr j)].
    split.
    + by apply (proj1 (fk_ok_true _ _) Hfp).
    + by apply (proj1 (fk_ok_true _ _) Hfc).
Qed.

(** Deleting a row after the rows that point to it. *)
Lemma fk_intact_delete_profile (d : db.Database) (k : Z) (ms : gmap Z db.MemberRow) :
  fk_intact d →
  (∀ j r, ms !! j = Some r ↔
          db.members d !! j = Some r ∧ Some (db.r_profile_id r) ≠ Some k) →
  fk_intact (db.set_members ms (db.set_profiles (delete k (db.profiles d)) d)).
Proof.
  intros (He & Hr) Hms. split; simpl; [done|].
  intros j r [Hj Hne]%Hms. destruct (Hr j r Hj) as [Hp Hx].
  split; [|done].
  apply lookup_delete_is_Some. split; [|done]. by intros ->.
Qed.

Lemma fk_intact_delete_manufacturer (d : db.Database) (k : Z)
    (es : gmap Z db.EquipmentRow) :
  fk_intact d →
  (∀ j r, es !! j = Some r ↔
          db.equipments d !! j = Some r ∧ db.e_manufacturer_id r ≠ Some k) →
  fk_intact (db.set_equipments es
               (db.set_manufacturers (delete k (db.manufacturers d)) d)).
Proof.
  intros (He & Hr) Hes. split; simpl; [|done].
  intros j r [Hj Hne]%Hes. destruct (He j r Hj) as [Hx Hy]. split; [done|].
  intros m Hmf. apply lookup_delete_is_Some. split; [|by apply Hy].
  intros ->. by rewrite Hmf in Hne.
Qed.

Lemma fk_intact_delete_club (d : db.Database) (k : Z)
    (es : gmap Z db.EquipmentRow) (ms : gmap Z db.MemberRow) :
  fk_intact d →
  (∀ j r, es !! j = Some r ↔
          db.equipments d !! j = Some r ∧ Some (db.e_club_id r) ≠ Some k) →
  (∀ j r, ms !! j = Some r ↔
          db.members d !! j = Some r ∧ Some (db.r_club_id r) ≠ Some k) →
  fk_intact (db.set_members ms
               (db.set_equipments es (db.set_clubs (delete k (db.clubs d)) d))).
Proof.
  intros (He & Hr) Hes Hms. split; simpl.
  - intros j r [Hj Hne]%Hes. destruct (He j r Hj) as [Hx Hy].
    split; [|done].
    apply lookup_delete_is_Some. split; [|done]. by intros ->.
  - intros j r [Hj Hne]%Hms. destruct (Hr j r Hj) as [Hx Hy].
    split; [done|].
    apply lookup_delete_is_Some. split; [|done]. by intros ->.
Qed.

Lemma consistent_delete_profile (d : db.Database) (k : Z) (ms : gmap Z db.MemberRow) :
  consistent d →
  (∀ j r, ms !! j = Some r ↔
          db.members d !! j = Some r ∧ Some (db.r_profile_id r) ≠ Some k) →
  consistent (db.set_members ms (db.set_profiles (delete k (db.profiles d)) d)).
Proof.
  intros (Hc & Hm & Hfk) Hms.
  split; [done|]. split; [|by apply fk_intact_delete_profile]. simpl.
  apply (unique_on_sub _ (db.members d)); [|done].
  intros j r Hj. by apply Hms in Hj as [? _].
Qed.

Lemma consistent_delete_manufacturer (d : db.Database) (k : Z)
    (es : gmap Z db.EquipmentRow) :
  consistent d →
  (∀ j r, es !! j = Some r ↔
          db.equipments d !! j = Some r ∧ db.e_manufacturer_id r ≠ Some k) →
  consistent (db.set_equipments es
                (db.set_manufacturers (delete k (db.manufacturers d)) d)).
Proof.
  intros (Hc & Hm & Hfk) Hes.
  split; [done|]. split; [done|]. by apply fk_intact_delete_manufacturer.
Qed.

Lemma consistent_delete_club (d : db.Database) (k : Z)
    (es : gmap Z db.EquipmentRow) (ms : gmap Z db.MemberRow) :
  consistent d →
  (∀ j r, es !! j = Some r ↔
          db.equipments d !! j = Some r ∧ Some (db.e_club_id r) ≠ Some k) →
  (∀ j r, ms !! j = Some r ↔
          db.members d !! j = Some r ∧ Some (db.r_club_id r) ≠ Some k) →
  consistent (db.set_members ms
                (db.set_equipments es (db.set_clubs (delete k (db.clubs d)) d))).
Proof.
  intros (Hc & Hm & Hfk) Hes Hms.
  split; [|split; [|by apply fk_intact_delete_club]]; simpl.
  - apply (unique_on_sub _ (db.clubs d)); [|done].
    intros j r Hj. by apply lookup_delete_Some in Hj as [_ ?].
  - apply (unique_on_sub _ (db.members d)); [|done].
    intros j r Hj. by apply Hms in Hj as [? _].
Qed.

Lemma consistent_delete_equipment (d : db.Database) (k : Z) :
  consistent d → consistent (db.set_equipments (delete k (db.equipments d)) d).
Proof.
  intros (Hc & Hm & He & Hr). split_consistent; try done.
  intros j r [_ Hj]%lookup_delete_Some. by apply (He j).
Qed.

Lemma consistent_delete_member (d : db.Database) (k : Z) :
  consistent d → consistent (db.set_members (delete k (db.members d)) d).
Proof.
  intros (Hc & Hm & He & Hr). split_consistent; try done.
  - apply (unique_on_sub _ (db.members d)); [|done].
    intros j r Hj. by apply lookup_delete_Some in Hj as [_ ?].
  - intros j r [_ Hj]%lookup_delete_Some. by apply (Hr j).
Qed.

(** What each delete returns. *)
Lemma delete_Club_Ok (c : Club.t) (w : World) (k : Z) :
  Club.pk c = Some k →
  ∃ es ms,
    Model.delete_Club c w
      = Ok (set_database
              (db.set_members ms
                 (db.set_equipments es
                    (db.set_clubs (delete k (db.clubs (database w))) (database w))))
              w) ∧
    (∀ j r, es !! j = Some r ↔
       db.equipments (database w) !! j = Some r ∧ Some (db.e_club_id r) ≠ Some k) ∧
    (∀ j r, ms !! j = Some r ↔
       db.members (database w) !! j = Some r ∧ Some (db.r_club_id r) ≠ Some k).
Proof.
  intros Hk. unfold Model.delete_Club. rewrite Hk.
  destruct (cascade_lookup Equipment.club_field (λ r, Some (db.e_club_id r)) id
              k (db.equipments (database w)) eq_refl) as (es & -> & Hes).
  destruct (cascade_lookup Member.club_field (λ r, Some (db.r_club_id r)) id
              k (db.members (database w)) eq_refl) as (ms & -> & Hms).
  by exists es, ms.
Qed.

Lemma delete_Manufacturer_Ok (m : Manufacturer.t) (w : World) (k : Z) :
  Manufacturer.pk m = Some k →
  ∃ es,
    Model.delete_Manufacturer m w
      = Ok (set_database
              (db.set_equipments es
                 (db.set_manufacturers
                    (delete k (db.manufacturers (database w))) (database w)))
              w) ∧
    (∀ j r, es !! j = Some r ↔
       db.equipments (database w) !! j = Some r ∧ db.e_manufacturer_id r ≠ Some k).
Proof.
  intros Hk. unfold Model.delete_Manufacturer. rewrite Hk.
  match goal with |- context [db.apply_on_delete ?f ?r ?c ?k ?t] =>
    destruct (cascade_lookup f r c k t eq_refl) as (es & -> & Hes) end.
  by exists es.
Qed.

Lemma delete_Profile_Ok (p : Profile.t) (w : World) (k : Z) :
  Profile.pk p = Some k →
  ∃ ms,
    Model.delete_Profile p w
      = Ok (set_database
              (db.set_members ms
                 (db.set_profiles (delete k (db.profiles (database w))) (database w)))
              w) ∧
    (∀ j r, ms !! j = Some r ↔
       db.members (database w) !! j = Some r ∧ Some (db.r_profile_id r) ≠ Some k).
Proof.
  intros Hk. unfold Model.delete_Profile. rewrite Hk.
  match goal with |- context [db.apply_on_delete ?f ?r ?c ?k ?t] =>
    destruct (cascade_lookup f r c k t eq_refl) as (ms & -> & Hms) end.
  by exists ms.
Qed.

Lemma Model_save_consistent (c : Club.t) (w : World) :
  consistent (database w) → consistent (database (Club.Model_save c w).2).
Proof.
  intros Hw. unfold Club.Model_save.
  destruct (Club.to_row w c) as [row|x]; [|done].
  destruct (db.unique_ok _ _ _ _) eqn:Hok; [|done].
  simpl. by apply consistent_save_club.
Qed.

Lemma run_consistent (w : World) (o : op) :
  consistent (database w) → consistent (database (run w o)).
Proof.
  intros Hw. destruct o as [x|x|x|x|x|x|x|x|x|x]; simpl.
  - unfold Profile.save. destruct (db.unique_ok _ _ _ _); [|done].
    simpl. by apply consistent_save_profile.
  - unfold Manufacturer.save. destruct (db.unique_ok _ _ _ _); [|done].
    simpl. by apply consistent_save_manufacturer.
  - unfold Club.save.
    destruct (Club.pk x), (Club.foundation_date x);
      cbn -[Club.Model_save]; by apply Model_save_consistent.
  - unfold Equipment.save. destruct (Equipment.to_row x) as [row|e]; [|done].
    destruct (_ && _) eqn:Hfk; [|done]. simpl.
    by apply consistent_save_equipment.
  - unfold Member.save. destruct (Member.to_row w x) as [row|e]; [|done].
    destruct (_ && _) eqn:Hfk; [|done].
    destruct (db.unique_ok _ _ _ _) eqn:Hok; [|done]. simpl.
    by apply consistent_save_member.
  - destruct (Profile.pk x) as [k|] eqn:Hk.
    + destruct (delete_Profile_Ok x w k Hk) as (ms & -> & Hms). simpl.
      by apply consistent_delete_profile.
    + unfold Model.delete_Profile. by rewrite Hk.
  - destruct (Manufacturer.pk x) as [k|] eqn:Hk.
    + destruct (delete_Manufacturer_Ok x w k Hk) as (es & -> & Hes). simpl.
      by apply consistent_delete_manufacturer.
    + unfold Model.delete_Manufacturer. by rewrite Hk.
  - destruct (Club.pk x) as [k|] eqn:Hk.
    + destruct (delete_Club_Ok x w k Hk) as (es & ms & -> & Hes & Hms). simpl.
      by apply consistent_delete_club.
    + unfold Model.delete_Club. by rewrite Hk.
  - unfold Model.delete_Equipment. destruct (Equipment.pk x); [|done].
    simpl. by apply consistent_delete_equipment.
  - unfold Model.delete_Member. destruct (Member.pk x); [|done].
    simpl. by apply consistent_delete_member.
Qed.

Lemma reachable_consistent (w : World) : reachable w → consistent (database w).
Proof.
  intros (w0 & ops & H0 & ->). revert w0 H0.
  assert (∀ w0, consistent (database w0) →
                consistent (database (foldl run w0 ops))) as Hall.
  { induction ops as [|o ops IH]; intros w0 Hw0; [done|].
    simpl. apply IH. by apply run_consistent. }
  intros w0 H0. apply Hall. rewrite H0. apply consistent_empty.
Qed.

Lemma reachable_run (w : World) (o : op) : reachable w → reachable (run w o).
Proof.
  intros (w0 & ops & H0 & ->). exists w0, (ops ++ [o])%list.
  split; [done|]. by rewrite foldl_app.
Qed.

(** ** Uniqueness *)

Lemma Club_insert_conflict (c : Club.t) (w : World) (k : Z) (row : db.ClubRow) :
  Club.pk c = None →
  db.clubs (database w) !! k = Some row →
  db.c_title row = Club.title c →
  (Club.save c w).1.1 = Raise IntegrityError ∧
  database (Club.save c w).2 = database w.
Proof.
  intros Hpk Hrow Htitle.
  assert (k ≠ db.fresh_pk (db.clubs (database w))) as Hfresh.
  { intros ->. by rewrite fresh_pk_fresh in Hrow. }
  destruct c as [pk title cat [fd|] lu]; simpl in *; subst pk;
    unfold Club.save, Club.Model_save, Club.to_row; simpl;
    by rewrite (unique_ok_false db.c_title _ k _ row).
Qed.

Lemma Member_insert_conflict (m : Member.t) (w : World) (p c k : Z)
    (row : db.MemberRow) :
  Member.pk m = None →
  Profile.pk (Member.profile m) = Some p →
  Club.pk (Member.club m) = Some c →
  db.members (database w) !! k = Some row →
  db.r_profile_id row = p → db.r_club_id row = c →
  (Member.save m w).1.1 = Raise IntegrityError ∧
  database (Member.save m w).2 = database w.
Proof.
  intros Hpk Hp Hc Hrow Hrp Hrc.
  assert (k ≠ db.fresh_pk (db.members (database w))) as Hfresh.
  { intros ->. by rewrite fresh_pk_fresh in Hrow. }
  unfold Member.save, Member.to_row. rewrite Hpk, Hp, Hc. simpl.
  destruct (_ && _); [|done].
  rewrite (unique_ok_false Member.unique_together _ k _ row); try done.
  unfold Member.unique_together. simpl. by rewrite Hrp, Hrc.
Qed.

(** C3: in every database the requests can reach, two club rows have
    different titles and two member rows have different (profile, club)
    pairs; inserting a club whose title a row already has, or a member
    whose (profile, club) pair a row already has, raises IntegrityError
    and leaves the database as it was. *)
Theorem C3_unique_titles_and_memberships :
  (∀ w : World, reachable w →
     (∀ k1 k2 r1 r2,
        db.clubs (database w) !! k1 = Some r1 →
        db.clubs (database w) !! k2 = Some r2 →
        k1 ≠ k2 → db.c_title r1 ≠ db.c_title r2) ∧
     (∀ k1 k2 r1 r2,
        db.members (database w) !! k1 = Some r1 →
        db.members (database w) !! k2 = Some r2 →
        k1 ≠ k2 →
        (db.r_profile_id r1, db.r_club_id r1) ≠ (db.r_profile_id r2, db.r_club_id r2))) ∧
  (∀ (c : Club.t) (w : World) (k : Z) (row : db.ClubRow),
     Club.pk c = None →
     db.clubs (database w) !! k = Some row →
     db.c_title row = Club.title c →
     (Club.save c w).1.1 = Raise IntegrityError ∧
     database (Club.save c w).2 = database w) ∧
  (∀ (m : Member.t) (w : World) (p c k : Z) (row : db.MemberRow),
     Member.pk m = None →
     Profile.pk (Member.profile m) = Some p →
     Club.pk (Member.club m) = Some c →
     db.members (database w) !! k = Some row →
     db.r_profile_id row = p → db.r_club_id row = c →
     (Member.save m w).1.1 = Raise IntegrityError ∧
     database (Member.save m w).2 = database w).
Proof.
  split; [|split].
  - intros w (Hc & Hm & _)%reachable_consistent. split; [exact Hc|exact Hm].
  - apply Club_insert_conflict.
  - apply Member_insert_conflict.
Qed.

(** ** Cascading deletes *)

(** C2: deleting a club deletes the equipment and the member rows that
    point to it, and no others; deleting a manufacturer deletes the
    equipment rows that point to it; deleting a profile deletes the
    member rows that point to it.  Each delete keeps every foreign key
    pointing to a row, and in every reachable database every foreign
    key does. *)
Theorem C2_deletes_cascade :
  (∀ (c : Club.t) (w : World) (k : Z), Club.pk c = Some k →
     ∃ w', Model.delete_Club c w = Ok w' ∧
       db.clubs (database w') = delete k (db.clubs (database w)) ∧
       (∀ j r, db.equipments (database w') !! j = Some r ↔
          db.equipments (database w) !! j = Some r ∧ db.e_club_id r ≠ k) ∧
       (∀ j r, db.members (database w') !! j = Some r ↔
          db.members (database w) !! j = Some r ∧ db.r_club_id r ≠ k) ∧
       (fk_intact (database w) → fk_intact (database w'))) ∧
  (∀ (m : Manufacturer.t) (w : World) (k : Z), Manufacturer.pk m = Some k →
     ∃ w', Model.delete_Manufacturer m w = Ok w' ∧
       db.manufacturers (database w') = delete k (db.manufacturers (database w)) ∧
       (∀ j r, db.equipments (database w') !! j = Some r ↔
          db.equipments (database w) !! j = Some r ∧
          db.e_manufacturer_id r ≠ Some k) ∧
       (fk_intact (database w) → fk_intact (database w'))) ∧
  (∀ (p : Profile.t) (w : World) (k : Z), Profile.pk p = Some k →
     ∃ w', Model.delete_Profile p w = Ok w' ∧
       db.profiles (database w') = delete k (db.profiles (database w)) ∧
       (∀ j r, db.members (database w') !! j = Some r ↔
          db.members (database w) !! j = Some r ∧ db.r_profile_id r ≠ k) ∧
       (fk_intact (database w) → fk_intact (database w'))) ∧
  (∀ w : World, reachable w → fk_intact (database w)).
Proof.
  split; [|split; [|split]].
  - intros c w k Hk.
    destruct (delete_Club_Ok c w k Hk) as (es & ms & -> & Hes & Hms).
    eexists. split; [done|]. simpl. split; [done|]. split; [|split].
    + intros j r. rewrite Hes. split; intros [? Hne]; split; try done; congruence.
    + intros j r. rewrite Hms. split; intros [? Hne]; split; try done; congruence.
    + intros Hfk. by apply fk_intact_delete_club.
  - intros m w k Hk.
    destruct (delete_Manufacturer_Ok m w k Hk) as (es & -> & Hes).
    eexists. split; [done|]. simpl. split; [done|]. split; [done|].
    intros Hfk. by apply fk_intact_delete_manufacturer.
  - intros p w k Hk.
    destruct (delete_Profile_Ok p w k Hk) as (ms & -> & Hms).
    eexists. split; [done|]. simpl. split; [done|]. split.
    + intros j r. rewrite Hms. split; intros [? Hne]; split; try done; congruence.
    + intros Hfk. by apply fk_intact_delete_profile.
  - by intros w (_ & _ & Hfk)%reachable_consistent.
Qed.

(** ** The properties on the sample data *)

Lemma populated_world_reachable : reachable populated_world.
Proof. exists sample_world, sample_requests. by split. Qed.

Example populated_world_rows :
  size (db.clubs (database populated_world)) = 1%nat ∧
  size (db.profiles (database populated_world)) = 1%nat ∧
  size (db.manufacturers (database populated_world)) = 1%nat ∧
  size (db.equipments (database populated_world)) = 1%nat ∧
  size (db.members (database populated_world)) = 1%nat.
Proof. by vm_compute. Qed.

Lemma C1_witness :
  Club.foundation_date (Club.save new_club sample_world).1.2
    = Some (ADateTime 1600000000) ∧
  Club.last_update (Club.save new_club sample_world).1.2
    = Some (ADateTime 1600000001).
Proof.
  exact (proj1 (proj1 C1_club_save_timestamps new_club sample_world eq_refl)
           eq_refl).
Defined.

Lemma C2_witness :
  ∃ w', Model.delete_Club sample_club populated_world = Ok w' ∧
    db.equipments (database w') !! 1 = None ∧
    db.members (database w') !! 1 = None ∧
    fk_intact (database w').
Proof.
  destruct (proj1 C2_deletes_cascade sample_club populated_world 1 eq_refl)
    as (w' & Hdel & _ & Hes & Hms & Hfk).
  exists w'. split; [exact Hdel|].
  split; [|split].
  - destruct (db.equipments (database w') !! 1) as [r|] eqn:Hr; [|done].
    apply Hes in Hr as [Hr Hne]. vm_compute in Hr. by injection Hr as <-.
  - destruct (db.members (database w') !! 1) as [r|] eqn:Hr; [|done].
    apply Hms in Hr as [Hr Hne]. vm_compute in Hr. by injection Hr as <-.
  - apply Hfk.
    apply (proj2 (proj2 (proj2 C2_deletes_cascade)) populated_world).
    exists sample_world, sample_requests. by split.
Defined.

Lemma C3_witness :
  (Club.save new_club populated_world).1.1 = Raise IntegrityError ∧
  database (Club.save new_club populated_world).2 = database populated_world.
Proof.
  apply (proj1 (proj2 C3_unique_titles_and_memberships) new_club
           populated_world 1
           {| db.c_title := "Riverside Badminton"; db.c_category := 0;
              db.c_foundation_date := ADate 18518;
              db.c_last_update := ADateTime 1600000001 |});
    by vm_compute.
Defined.


Example C4_sample_label :
  text <$> (match Member.get_absolute_url (H := sample_tpl) sample_member with
            | Ok u => Some u
            | Raise _ => None
            end)
  = Some ("Ann › Lee › a date / "
          +:+ "Riverside Badminton › Recreational › a date and time › a date and time").
Proof. by vm_compute. Qed.

Lemma C5_witness :
  ("manufacturer" ∉
     keys [ ("club", PDict [ ("title", PStr "Riverside Badminton");
                             ("category", PStr "Recreational");
                             ("foundation_date", PStr "a date and time");
                             ("last_update", PStr "a date and time") ]);
            ("inventory_name", PStr "Racket A");
            ("category", PStr "Racket") ]).
Proof.
  exact (proj1 (proj2 (C5_equipment_manufacturer_key (H := sample_tpl)
                         sample_equipment) _ eq_refl)).
Defined.

Lemma C6_witness :
  ∃ d, Equipment.get_str_fields (H := sample_tpl) new_equipment = Ok d.
Proof.
  apply (proj1 (proj1 (C6_nested_display_mappings (H := sample_tpl))
                  new_equipment)); vm_compute; eauto.
Defined.

Lemma C7_witness :
  ∃ k row, Club.pk (Club.save odd_club sample_world).1.2 = Some k ∧
    db.clubs (database (Club.save odd_club sample_world).2) !! k = Some row ∧
    db.c_category row = 7.
Proof.
  apply (proj1 (proj2 (proj1 C7_choices_not_checked_by_save odd_club sample_world))).
  by vm_compute.
Defined.

Lemma C8_witness :
  od_get "direct_shipping" (Manufacturer.get_str_fields sample_manufacturer)
  = Ok (PStr "Yes (direct)").
Proof.
  exact (proj1 (C8_boolean_labels (H := sample_tpl)) sample_manufacturer).
Defined.


Lemma C10_witness :
  Member.get_absolute_url (H := sample_tpl)
    (Member.set_note "right-handed after all" sample_member)
  = Member.get_absolute_url (H := sample_tpl) sample_member.
Proof.
  exact (proj2 (proj2 (proj2 (proj2 (C10_member_keys_without_note
                                        (H := sample_tpl) sample_member))
                          "right-handed after all"))).
Defined.

(** * Further properties of the models *)

(** ** Strings as lists of characters *)

Lemma list_ascii_app (s1 s2 : string) :
  list_ascii_of_string (s1 +:+ s2)
  = (list_ascii_of_string s1 ++ list_ascii_of_string s2)%list.
Proof.
  induction s1 as [|a s1 IH]; [done|].
  change (a :: list_ascii_of_string (s1 +:+ s2)
          = a :: (list_ascii_of_string s1 ++ list_ascii_of_string s2)%list).
  by rewrite IH.
Qed.

Lemma list_ascii_inj (s1 s2 : string) :
  list_ascii_of_string s1 = list_ascii_of_string s2 → s1 = s2.
Proof.
  intros Heq. rewrite <- (string_of_list_ascii_of_string s1).
  rewrite <- (string_of_list_ascii_of_string s2). by rewrite Heq.
Qed.

(** Appending the same text to two strings keeps them apart. *)
Lemma string_app_inv_tail (s1 s2 t : string) :
  s1 +:+ t = s2 +:+ t → s1 = s2.
Proof.
  intros Heq%(f_equal list_ascii_of_string). rewrite !list_ascii_app in Heq.
  apply list_ascii_inj. by apply app_inv_tail in Heq.
Qed.

(** ** Summary strings *)

(** [Manufacturer.__str__] never raises: it is the company name, the
    separator and one of the two shipping labels.  It tells
    manufacturers apart: equal summaries mean equal company names and
    equal flags. *)
Theorem Manufacturer_str_injective (m1 m2 : Manufacturer.t) :
  Manufacturer.__str__ m1
    = Ok (Manufacturer.company_name m1 +:+ sep +:+
          (if Manufacturer.direct_shipping m1
           then "Yes (direct)" else "No (remote)")) ∧
  (Manufacturer.__str__ m1 = Manufacturer.__str__ m2 →
   Manufacturer.company_name m1 = Manufacturer.company_name m2 ∧
   Manufacturer.direct_shipping m1 = Manufacturer.direct_shipping m2).
Proof.
  split; [done|].
  unfold Manufacturer.__str__, Manufacturer.get_str_fields. simpl.
  intros [= Heq].
  destruct (Manufacturer.direct_shipping m1), (Manufacturer.direct_shipping m2).
  - split; [|done].
    by apply (string_app_inv_tail _ _ (sep +:+ "Yes (direct)")).
  - exfalso. apply (f_equal list_ascii_of_string) in Heq.
    rewrite !list_ascii_app in Heq. apply (f_equal (@rev _)) in Heq.
    rewrite !rev_app_distr in Heq. simpl in Heq. by injection Heq.
  - exfalso. apply (f_equal list_ascii_of_string) in Heq.
    rewrite !list_ascii_app in Heq. apply (f_equal (@rev _)) in Heq.
    rewrite !rev_app_distr in Heq. simpl in Heq. by injection Heq.
  - split; [|done].
    by apply (string_app_inv_tail _ _ (sep +:+ "No (remote)")).
Qed.

(** Which stored values have a label. *)
Lemma Club_category_declared (v : Z) :
  is_Some (choice_label Club.CATEGORIES v) ↔ v = 0 ∨ v = 1.
Proof.
  unfold Club.CATEGORIES, Club.CATEGORY_RECREATIONAL, Club.CATEGORY_PROFESSIONAL.
  simpl. repeat case_decide; split; intros Hv; eauto; try lia.
  by destruct Hv.
Qed.

Lemma Equipment_category_declared (v : Z) :
  is_Some (choice_label Equipment.CATEGORIES v) ↔ (0 ≤ v ≤ 3)%Z.
Proof.
  unfold Equipment.CATEGORIES, Equipment.CATEGORY_RACKET, Equipment.CATEGORY_BALL,
    Equipment.CATEGORY_SHUTTLECOCK, Equipment.CATEGORY_OTHER.
  simpl. repeat case_decide; split; intros Hv; eauto; try lia.
  by destruct Hv.
Qed.

Lemma Member_plays_declared (v : Z) :
  is_Some (choice_label Member.SPORTS v) ↔ (0 ≤ v ≤ 4)%Z.
Proof.
  unfold Member.SPORTS, Member.BASIC_SPORTS, Member.SPORT_BADMINTON,
    Member.SPORT_TENNIS, Member.SPORT_TABLE_TENNIS, Member.SPORT_SQUASH,
    Member.SPORT_ANOTHER.
  simpl. repeat case_decide; split; intros Hv; eauto; try lia.
  by destruct Hv.
Qed.

Lemma Member_role_declared (v : Z) :
  is_Some (choice_label Member.ROLES v) ↔ (0 ≤ v ≤ 2)%Z.
Proof.
  unfold Member.ROLES, Member.ROLE_OWNER, Member.ROLE_FOUNDER, Member.ROLE_MEMBER.
  simpl. repeat case_decide; split; intros Hv; eauto; try lia.
  by destruct Hv.
Qed.

Section summaries.
Context `{Tpl}.

Lemma Club_str_cases (c : Club.t) :
  match Club.foundation_date c, Club.last_update c,
        choice_label Club.CATEGORIES (Club.category c) with
  | Some fd, Some lu, Some label =>
      Club.__str__ c
      = Ok (Club.title c +:+ sep +:+ label +:+ sep +:+
            format_local_date fd +:+ sep +:+ format_local_date lu)
  | _, _, _ => Club.__str__ c = Raise TypeError
  end.
Proof.
  unfold Club.__str__, Club.get_str_fields, Club.get_category_display,
    get_FIELD_display.
  remember (choice_label Club.CATEGORIES (Club.category c)) as l eqn:Hl.
  by destruct (Club.foundation_date c), (Club.last_update c), l.
Qed.


End summaries.

Section summaries_of_composites.
Context `{Tpl}.

Lemma Equipment_str_returns (e : Equipment.t) :
  (∃ s, Equipment.__str__ e = Ok s) ↔
  is_Some (Club.foundation_date (Equipment.club e)) ∧
  is_Some (Club.last_update (Equipment.club e)) ∧
  is_Some (choice_label Club.CATEGORIES (Club.category (Equipment.club e))) ∧
  is_Some (choice_label Equipment.CATEGORIES (Equipment.category e)).
Proof.
  unfold Equipment.__str__, Equipment.get_str_fields, Club.get_str_fields,
    Club.get_category_display, Equipment.get_category_display, get_FIELD_display.
  destruct (Club.foundation_date (Equipment.club e)) as [fd|],
    (Club.last_update (Equipment.club e)) as [lu|],
    (choice_label Club.CATEGORIES (Club.category (Equipment.club e))) as [a|],
    (choice_label Equipment.CATEGORIES (Equipment.category e)) as [b|],
    (Equipment.manufacturer e) as [m|].
  all: split;
    [ intros [s Hs]; vm_compute in Hs; try discriminate Hs;
      repeat split; by eexists
    | intros (Hf & Hl & H1 & H2);
      first [ by destruct Hf | by destruct Hl | by destruct H1 | by destruct H2
            | vm_compute; by eexists ] ].
Qed.

Lemma Member_str_returns (m : Member.t) :
  (∃ s, Member.__str__ m = Ok s) ↔
  is_Some (Club.foundation_date (Member.club m)) ∧
  is_Some (Club.last_update (Member.club m)) ∧
  is_Some (choice_label Club.CATEGORIES (Club.category (Member.club m))) ∧
  is_Some (choice_label Member.SPORTS (Member.plays m)) ∧
  is_Some (choice_label Member.ROLES (Member.role m)).
Proof.
  unfold Member.__str__, Member.get_str_fields, Club.get_str_fields,
    Club.get_category_display, Member.get_plays_display, Member.get_role_display,
    get_FIELD_display.
  destruct (Club.foundation_date (Member.club m)) as [fd|],
    (Club.last_update (Member.club m)) as [lu|],
    (choice_label Club.CATEGORIES (Club.category (Member.club m))) as [a|],
    (choice_label Member.SPORTS (Member.plays m)) as [b|],
    (choice_label Member.ROLES (Member.role m)) as [c|].
  all: split;
    [ intros [s Hs]; vm_compute in Hs; try discriminate Hs;
      repeat split; by eexists
    | intros (Hf & Hl & H1 & H2 & H3);
      first [ by destruct Hf | by destruct Hl | by destruct H1 | by destruct H2
            | by destruct H3 | vm_compute; by eexists ] ].
Qed.

End summaries_of_composites.

(** ** More on saving a club *)

Lemma to_row_set_pk (c : Club.t) (w : World) (d : db.Database) (k : option Z) :
  Club.to_row (set_database d w) (Club.set_pk k c) = Club.to_row w c.
Proof. done. Qed.

Lemma unique_ok_after_insert {V K} `{EqDecision K} (key : V → K) (k : Z) (row : V)
    (t : gmap Z V) :
  db.unique_ok key k row t = true →
  db.unique_ok key k row (<[k := row]> t) = true.
Proof.
  intros Hok. pose proof (proj1 (unique_ok_true key k row t) Hok) as Hall.
  apply unique_ok_true. intros k' r [[<- _]|[_ Hr]]%lookup_insert_Some.
  - by left.
  - by apply Hall.
Qed.

Lemma Model_save_again (c : Club.t) (w : World) :
  (Club.Model_save c w).1.1 = Ok () →
  Club.Model_save (Club.Model_save c w).1.2 (Club.Model_save c w).2
  = (Ok (), (Club.Model_save c w).1.2, (Club.Model_save c w).2).
Proof.
  unfold Club.Model_save at 1 3 4 5 6.
  destruct (Club.to_row w c) as [row|x] eqn:Hto; [|done].
  destruct (db.unique_ok _ _ _ _) eqn:Hok; [|done]. intros _.
  cbn [fst snd]. unfold Club.Model_save.
  rewrite to_row_set_pk, Hto. cbn.
  rewrite (unique_ok_after_insert _ _ _ _ Hok).
  by rewrite insert_insert_eq.
Qed.

(** What [Club.save] hands to [Model.save]. *)
Lemma Club_save_is_Model_save (c : Club.t) (w : World) :
  ∃ c1 w1, Club.save c w = Club.Model_save c1 w1 ∧
    database w1 = database w ∧ Club.title c1 = Club.title c ∧
    Club.pk c1 = Club.pk c ∧
    (Club.pk c = None → is_Some (Club.foundation_date c1) ∧
                        is_Some (Club.last_update c1)) ∧
    (is_Some (Club.pk c) → c1 = c ∧ w1 = w).
Proof.
  unfold Club.save.
  destruct (Club.pk c) as [k|] eqn:Hk.
  - exists c, w. by repeat split.
  - destruct (Club.foundation_date c) as [fd|] eqn:Hfd; cbn -[Club.Model_save];
      eexists _, _; (split; [reflexivity|]); cbn; rewrite ?Hfd;
        repeat split; try done; try by eexists.
    all: by intros [].
Qed.

(** Saving again what a successful save returned changes nothing: the
    object keeps its key and its dates, the database and the clock stay
    as they are. *)
Theorem Club_save_again_is_noop (c : Club.t) (w : World) :
  (Club.save c w).1.1 = Ok () →
  Club.save (Club.save c w).1.2 (Club.save c w).2
  = (Ok (), (Club.save c w).1.2, (Club.save c w).2).
Proof.
  destruct (Club_save_is_Model_save c w) as (c1 & w1 & -> & _).
  intros Hres.
  destruct (Model_save_Ok c1 w1 Hres) as (k & row & Hk & _).
  rewrite (Club_save_persisted _ _ k Hk). by apply Model_save_again.
Qed.

Lemma Model_save_unfold (c : Club.t) (w : World) (fd lu : temporal) :
  Club.foundation_date c = Some fd → Club.last_update c = Some lu →
  let row := {| db.c_title := Club.title c; db.c_category := Club.category c;
                db.c_foundation_date := DateField_to_python w fd;
                db.c_last_update := DateTimeField_to_python w lu |} in
  let tbl := db.clubs (database w) in
  let k := default (db.fresh_pk tbl) (Club.pk c) in
  Club.Model_save c w
  = if db.unique_ok db.c_title k row tbl
    then (Ok (), Club.set_pk (Some k) c,
          set_database (db.set_clubs (<[k := row]> tbl) (database w)) w)
    else (Raise IntegrityError, c, w).
Proof.
  intros Hfd Hlu. unfold Club.Model_save, Club.to_row. by rewrite Hfd, Hlu.
Qed.

(** The first save of a club succeeds exactly when no row has its
    title.  It then stores the club under a key that was not in use and
    leaves every row that was there, in all five tables, as it was. *)
Theorem Club_first_save_inserts (c : Club.t) (w : World) :
  Club.pk c = None →
  ((Club.save c w).1.1 = Ok () ↔
   ∀ k row, db.clubs (database w) !! k = Some row → db.c_title row ≠ Club.title c) ∧
  ((Club.save c w).1.1 = Ok () →
   ∃ k, Club.pk (Club.save c w).1.2 = Some k ∧
     db.clubs (database w) !! k = None ∧
     is_Some (db.clubs (database (Club.save c w).2) !! k) ∧
     (∀ j r, db.clubs (database w) !! j = Some r →
             db.clubs (database (Club.save c w).2) !! j = Some r) ∧
     db.profiles (database (Club.save c w).2) = db.profiles (database w) ∧
     db.manufacturers (database (Club.save c w).2) = db.manufacturers (database w) ∧
     db.equipments (database (Club.save c w).2) = db.equipments (database w) ∧
     db.members (database (Club.save c w).2) = db.members (database w)).
Proof.
  intros Hpk.
  destruct (Club_save_is_Model_save c w)
    as (c1 & w1 & -> & Hdb & Htitle & Hpk1 & Hdates & _).
  destruct (Hdates Hpk) as [[fd Hfd] [lu Hlu]].
  rewrite (Model_save_unfold c1 w1 fd lu Hfd Hlu).
  rewrite Hpk1, Hpk, Hdb, Htitle. cbn [default].
  pose proof (fresh_pk_fresh (db.clubs (database w))) as Hfresh.
  destruct (db.unique_ok _ _ _ _) eqn:Hok.
  - pose proof (proj1 (unique_ok_true _ _ _ _) Hok) as Hall. cbn in Hall.
    split.
    + split; [|done]. intros _ k row Hrow.
      destruct (Hall k row Hrow) as [->|?]; [|done]. by rewrite Hfresh in Hrow.
    + intros _. exists (db.fresh_pk (db.clubs (database w))). cbn.
      split; [done|]. split; [done|].
      split; [rewrite lookup_insert_eq; by eexists|]. split; [|done].
      intros j r Hj. rewrite lookup_insert_ne; [done|].
      intros <-. by rewrite Hfresh in Hj.
  - split; [|done]. split; [done|]. intros Hfree. exfalso.
    assert (db.unique_ok db.c_title (db.fresh_pk (db.clubs (database w)))
              {| db.c_title := Club.title c; db.c_category := Club.category c1;
                 db.c_foundation_date := DateField_to_python w1 fd;
                 db.c_last_update := DateTimeField_to_python w1 lu |}
              (db.clubs (database w)) = true) as Hyes.
    { apply unique_ok_true. intros k r Hr. right. by apply (Hfree k r). }
    by rewrite Hyes in Hok.
Qed.

Lemma Club_first_save_inserts_witness :
  (Club.save new_club sample_world).1.1 = Ok ().
Proof.
  apply (proj1 (Club_first_save_inserts new_club sample_world eq_refl)).
  intros k row Hrow. by vm_compute in Hrow.
Defined.

(** The save of a club that has a key stamps nothing: it succeeds
    exactly when both dates are set and no other row has the title;
    otherwise it raises IntegrityError and leaves the object, the
    database and the clock as they were. *)
Theorem Club_save_with_key (c : Club.t) (w : World) (k : Z) :
  Club.pk c = Some k →
  ((Club.save c w).1.1 = Ok () ↔
   is_Some (Club.foundation_date c) ∧ is_Some (Club.last_update c) ∧
   ∀ j r, db.clubs (database w) !! j = Some r → j ≠ k →
          db.c_title r ≠ Club.title c) ∧
  ((Club.save c w).1.1 ≠ Ok () →
   Club.save c w = (Raise IntegrityError, c, w)).
Proof.
  intros Hk. rewrite (Club_save_persisted c w k Hk).
  destruct (Club.foundation_date c) as [fd|] eqn:Hfd;
    [destruct (Club.last_update c) as [lu|] eqn:Hlu|].
  - rewrite (Model_save_unfold c w fd lu Hfd Hlu). rewrite Hk. cbn [default].
    destruct (db.unique_ok _ _ _ _) eqn:Hok.
    + pose proof (proj1 (unique_ok_true _ _ _ _) Hok) as Hall. cbn in Hall.
      split; [|done]. split; [|done]. intros _.
      split; [by eexists|]. split; [by eexists|].
      intros j r Hr Hne. by destruct (Hall j r Hr).
    + split; [|done]. split; [done|]. intros (_ & _ & Hfree). exfalso.
      apply not_true_iff_false in Hok. apply Hok, unique_ok_true.
      intros j r Hr. destruct (decide (j = k)) as [->|Hne]; [by left|].
      right. by apply (Hfree j r).
  - unfold Club.Model_save, Club.to_row. rewrite Hfd, Hlu.
    split; [|done]. split; [done|]. by intros (_ & [] & _).
  - unfold Club.Model_save, Club.to_row. rewrite Hfd.
    split; [|done]. split; [done|]. by intros ([] & _).
Qed.

Lemma Club_save_with_key_witness :
  Club.save (Club.set_pk (Some 5) new_club) sample_world
  = (Raise IntegrityError, Club.set_pk (Some 5) new_club, sample_world).
Proof.
  apply (proj2 (Club_save_with_key (Club.set_pk (Some 5) new_club)
                  sample_world 5 eq_refl)).
  by vm_compute.
Defined.

Lemma Club_save_again_witness :
  Club.save sample_club (Club.save new_club sample_world).2
  = (Ok (), sample_club, (Club.save new_club sample_world).2).
Proof.
  apply (Club_save_again_is_noop new_club sample_world). by vm_compute.
Defined.

(** ** Profiles and manufacturers *)

Lemma Club_save_other_tables (c : Club.t) (w : World) :
  db.profiles (database (Club.save c w).2) = db.profiles (database w) ∧
  db.manufacturers (database (Club.save c w).2) = db.manufacturers (database w) ∧
  db.equipments (database (Club.save c w).2) = db.equipments (database w) ∧
  db.members (database (Club.save c w).2) = db.members (database w).
Proof.
  destruct (Club_save_is_Model_save c w) as (c1 & w1 & -> & <- & _).
  unfold Club.Model_save.
  destruct (Club.to_row w1 c1); [|done].
  by destruct (db.unique_ok _ _ _ _).
Qed.

Lemma run_unique_profiles_and_manufacturers (w : World) (o : op) :
  unique_profiles_and_manufacturers (database w) →
  unique_profiles_and_manufacturers (database (run w o)).
Proof.
  intros [Hp Hm]. destruct o as [x|x|x|x|x|x|x|x|x|x]; simpl.
  - unfold Profile.save. destruct (db.unique_ok _ _ _ _) eqn:Hok; [|done].
    split; simpl; [by apply unique_on_insert|done].
  - unfold Manufacturer.save. destruct (db.unique_ok _ _ _ _) eqn:Hok; [|done].
    split; simpl; [done|by apply unique_on_insert].
  - destruct (Club_save_other_tables x w) as (Hp' & Hm' & _).
    unfold unique_profiles_and_manufacturers. by rewrite Hp', Hm'.
  - unfold Equipment.save. destruct (Equipment.to_row x); [|done].
    by destruct (_ && _).
  - unfold Member.save. destruct (Member.to_row w x); [|done].
    destruct (_ && _); [|done]. by destruct (db.unique_ok _ _ _ _).
  - destruct (Profile.pk x) as [k|] eqn:Hk.
    + destruct (delete_Profile_Ok x w k Hk) as (ms & -> & _).
      split; simpl; [|done].
      apply (unique_on_sub _ (db.profiles (database w))); [|done].
      intros j r Hj. by apply lookup_delete_Some in Hj as [_ ?].
    + unfold Model.delete_Profile. by rewrite Hk.
  - destruct (Manufacturer.pk x) as [k|] eqn:Hk.
    + destruct (delete_Manufacturer_Ok x w k Hk) as (es & -> & _).
      split; simpl; [done|].
      apply (unique_on_sub _ (db.manufacturers (database w))); [|done].
      intros j r Hj. by apply lookup_delete_Some in Hj as [_ ?].
    + unfold Model.delete_Manufacturer. by rewrite Hk.
  - destruct (Club.pk x) as [k|] eqn:Hk.
    + by destruct (delete_Club_Ok x w k Hk) as (es & ms & -> & _).
    + unfold Model.delete_Club. by rewrite Hk.
  - unfold Model.delete_Equipment. by destruct (Equipment.pk x).
  - unfold Model.delete_Member. by destruct (Member.pk x).
Qed.

(** In every database the requests can reach, two profile rows differ
    in first name, last name or birth date, and two manufacturer rows
    differ in company name; inserting a profile or a manufacturer that
    repeats a row in these columns raises IntegrityError and changes
    neither the object nor the database.  Two birth dates are the same
    when they fall on the same local date. *)
Theorem profiles_and_manufacturers_unique :
  (∀ w : World, reachable w →
     (∀ k1 k2 r1 r2,
        db.profiles (database w) !! k1 = Some r1 →
        db.profiles (database w) !! k2 = Some r2 →
        k1 ≠ k2 →
        (db.p_first_name r1, db.p_last_name r1, db.p_birth_date r1)
        ≠ (db.p_first_name r2, db.p_last_name r2, db.p_birth_date r2)) ∧
     (∀ k1 k2 r1 r2,
        db.manufacturers (database w) !! k1 = Some r1 →
        db.manufacturers (database w) !! k2 = Some r2 →
        k1 ≠ k2 → db.m_company_name r1 ≠ db.m_company_name r2)) ∧
  (∀ (p : Profile.t) (w : World) (k : Z) (row : db.ProfileRow),
     Profile.pk p = None →
     db.profiles (database w) !! k = Some row →
     db.p_first_name row = Profile.first_name p →
     db.p_last_name row = Profile.last_name p →
     db.p_birth_date row = DateField_to_python w (Profile.birth_date p) →
     Profile.save p w = (Raise IntegrityError, p, w)) ∧
  (∀ (m : Manufacturer.t) (w : World) (k : Z) (row : db.ManufacturerRow),
     Manufacturer.pk m = None →
     db.manufacturers (database w) !! k = Some row →
     db.m_company_name row = Manufacturer.company_name m →
     Manufacturer.save m w = (Raise IntegrityError, m, w)).
Proof.
  split; [|split].
  - intros w (w0 & ops & H0 & ->).
    assert (∀ w1, unique_profiles_and_manufacturers (database w1) →
                  unique_profiles_and_manufacturers (database (foldl run w1 ops)))
      as Hall.
    { induction ops as [|o ops IH]; intros w1 Hw1; [done|].
      simpl. apply IH. by apply run_unique_profiles_and_manufacturers. }
    destruct (Hall w0) as [Hp Hm]; [|split; [exact Hp|exact Hm]].
    rewrite H0. split; intros ? *; simpl; by rewrite lookup_empty.
  - intros p w k row Hpk Hrow Hf Hl Hb.
    assert (k ≠ db.fresh_pk (db.profiles (database w))) as Hfresh.
    { intros ->. by rewrite fresh_pk_fresh in Hrow. }
    unfold Profile.save. rewrite Hpk. cbn [default].
    rewrite (unique_ok_false Profile.unique_together _ k _ row); try done.
    unfold Profile.unique_together, Profile.to_row. simpl. by rewrite Hf, Hl, Hb.
  - intros m w k row Hpk Hrow Hn.
    assert (k ≠ db.fresh_pk (db.manufacturers (database w))) as Hfresh.
    { intros ->. by rewrite fresh_pk_fresh in Hrow. }
    unfold Manufacturer.save. rewrite Hpk. cbn [default].
    by rewrite (unique_ok_false db.m_company_name _ k _ row).
Qed.

Lemma profiles_and_manufacturers_unique_witness :
  Manufacturer.save new_manufacturer populated_world
  = (Raise IntegrityError, new_manufacturer, populated_world).
Proof.
  apply (proj2 (proj2 profiles_and_manufacturers_unique) new_manufacturer
           populated_world 1
           {| db.m_company_name := "Yonex"; db.m_direct_shipping := true |});
    by vm_compute.
Defined.

(** * The URL configuration *)

Section routing.
Variable unicode_word : N → bool.

Abbreviation exec := (urls.exec unicode_word).
Abbreviation search := (urls.search unicode_word).
Abbreviation is_word := (urls.is_word unicode_word).

Lemma strip_Some (l t t' : urls.text) :
  urls.strip l t = Some t' ↔ t = (l ++ t')%list.
Proof.
  revert t. induction l as [|a l IH]; intros t; simpl.
  - split; [by intros [= ->]|by intros ->].
  - destruct t as [|b t]; [done|].
    case_decide as Hab; [subst b|].
    + rewrite IH. split; [by intros ->|by intros [= ->]].
    + split; [done|]. intros [= -> _]. done.
Qed.

Lemma start_advance (t1 t2 : urls.text) (p : nat) (g : list (string * urls.text)) :
  urls.advance (length t1)
    {| urls.pos := p; urls.ahead := (t1 ++ t2)%list; urls.groups := g |}
  = {| urls.pos := p + length t1; urls.ahead := t2; urls.groups := g |}.
Proof. unfold urls.advance. simpl. by rewrite drop_app_length. Qed.

Lemma exec_Lit (s : string) (st m : urls.mstate) (k : urls.mstate → option urls.mstate) :
  exec (urls.Lit s) st k = Some m ↔
  ∃ t', urls.ahead st = (urls.str s ++ t')%list ∧
    k {| urls.pos := urls.pos st + length (urls.str s); urls.ahead := t';
         urls.groups := urls.groups st |} = Some m.
Proof.
  simpl. destruct (urls.strip (urls.str s) (urls.ahead st)) as [t'|] eqn:Hs.
  - apply strip_Some in Hs. destruct st as [p t g]. simpl in *. subst t.
    rewrite start_advance. split.
    + intros Hk. by exists t'.
    + intros (t'' & ->%app_inv_head & Hk). done.
  - split; [done|]. intros (t' & Ht & _).
    apply strip_Some in Ht. by rewrite Ht in Hs.
Qed.

Lemma exec_Dollar (st m : urls.mstate) (k : urls.mstate → option urls.mstate) :
  exec urls.Dollar st k = Some m ↔ urls.line_end (urls.ahead st) ∧ k st = Some m.
Proof.
  simpl. unfold urls.line_end.
  destruct (urls.ahead st) as [|c [|c' t]].
  - split; [by intros ?; split; [left|]|by intros [_ ?]].
  - case_decide as Hc; [subst c|].
    + split; [by intros ?; split; [right|]|by intros [_ ?]].
    + split; [done|]. by intros [[|[= ->]] _].
  - split; [done|]. by intros [[|] _].
Qed.

(** An expression that starts with [^] matches at the start of the path
    or nowhere. *)
Lemma search_from_Caret (r : urls.regex) (p : nat) (t : urls.text) :
  urls.search_from unicode_word (urls.Cat urls.Caret r) (S p) t = None.
Proof. revert p. induction t as [|c t IH]; intros p; simpl; [done|apply IH]. Qed.

Lemma search_Caret (r : urls.regex) (path : urls.text) :
  search (urls.Cat urls.Caret r) path
  = exec r {| urls.pos := 0; urls.ahead := path; urls.groups := [] |} Some.
Proof.
  unfold urls.search. destruct path as [|c t]; simpl.
  - by destruct (urls.exec _ _ _ _).
  - destruct (urls.exec _ _ _ _); [done|]. apply search_from_Caret.
Qed.

(** The three kinds of expression without groups. *)
Lemma search_main_page (path : urls.text) (m : urls.mstate) :
  search urls.main_page_regex path = Some m ↔
  urls.line_end path ∧
  m = {| urls.pos := 0; urls.ahead := path; urls.groups := [] |}.
Proof.
  unfold urls.main_page_regex. rewrite search_Caret, exec_Dollar. simpl.
  split; [by intros [? [= <-]]|by intros [? ->]].
Qed.

Lemma search_literal_route (l : string) (path : urls.text) (m : urls.mstate) :
  search (urls.Cat urls.Caret (urls.Cat (urls.Lit l) urls.Dollar)) path = Some m ↔
  ∃ nl, urls.line_end nl ∧ path = (urls.str l ++ nl)%list ∧
    m = {| urls.pos := length (urls.str l); urls.ahead := nl; urls.groups := [] |}.
Proof.
  rewrite search_Caret.
  change (exec (urls.Cat (urls.Lit l) urls.Dollar) ?st Some)
    with (exec (urls.Lit l) st (λ st', exec urls.Dollar st' Some)).
  rewrite exec_Lit. cbn [urls.pos urls.ahead urls.groups Nat.add]. split.
  - intros (nl & -> & [Hnl [= <-]]%exec_Dollar). by exists nl.
  - intros (nl & Hnl & -> & ->). exists nl. split; [done|].
    by apply exec_Dollar.
Qed.

Lemma search_accounts (path : urls.text) (m : urls.mstate) :
  search urls.accounts_regex path = Some m ↔
  ∃ rest, path = (urls.str "accounts/" ++ rest)%list ∧
    m = {| urls.pos := 9; urls.ahead := rest; urls.groups := [] |}.
Proof.
  unfold urls.accounts_regex. rewrite search_Caret, exec_Lit. simpl.
  split.
  - intros (rest & -> & [= <-]). by exists rest.
  - intros (rest & -> & ->). by exists rest.
Qed.

(** *** The repetition of [\w] *)

Lemma advance_0 (st : urls.mstate) : urls.advance 0 st = st.
Proof. destruct st as [p t g]. unfold urls.advance. simpl. by rewrite Nat.add_0_r. Qed.

Lemma advance_S (n : nat) (st : urls.mstate) :
  urls.advance n (urls.advance 1 st) = urls.advance (S n) st.
Proof.
  destruct st as [p t g]. unfold urls.advance. simpl.
  rewrite drop_drop. f_equal. lia.
Qed.

Lemma exec_Word (st m : urls.mstate) (k : urls.mstate → option urls.mstate) :
  exec urls.Word st k = Some m ↔
  ∃ c t, urls.ahead st = c :: t ∧ is_word c = true ∧ k (urls.advance 1 st) = Some m.
Proof.
  simpl. destruct (urls.ahead st) as [|c t].
  - split; [done|]. by intros (? & ? & [=] & _).
  - destruct (urls.is_word unicode_word c) eqn:Hc.
    + split; [intros ?; by exists c, t|]. by intros (? & ? & [= <- <-] & _ & ?).
    + split; [done|]. intros (? & ? & [= <- <-] & Hw & _). congruence.
Qed.

Lemma star_loop_S (body : urls.mstate → (urls.mstate → option urls.mstate)
                          → option urls.mstate)
    (k : urls.mstate → option urls.mstate) (fuel : nat) (st : urls.mstate) :
  urls.star_loop body k (S fuel) st
  = match body st (λ st', if decide (urls.pos st < urls.pos st')%nat
                          then urls.star_loop body k fuel st' else None) with
    | Some m => Some m
    | None => k st
    end.
Proof. done. Qed.

(** Whatever the repetition returns, the continuation returned it after
    some number of word characters. *)
Lemma star_word_sound (k : urls.mstate → option urls.mstate) (fuel : nat)
    (st m : urls.mstate) :
  urls.star_loop (exec urls.Word) k fuel st = Some m →
  ∃ n, (n ≤ length (urls.ahead st))%nat ∧
    Forall (λ c, is_word c = true) (take n (urls.ahead st)) ∧
    k (urls.advance n st) = Some m.
Proof.
  revert st. induction fuel as [|fuel IH]; intros st.
  - intros Hk. exists 0%nat. rewrite advance_0. split; [lia|]. by split.
  - rewrite star_loop_S.
    destruct (exec urls.Word st _) as [m'|] eqn:Hw.
    + intros [= ->]. apply exec_Word in Hw as (c & t & Ht & Hc & Hloop).
      case_decide as Hpos; [|done].
      apply IH in Hloop as (n & Hn & Hall & Hk).
      assert (urls.ahead (urls.advance 1 st) = t) as Ht1.
      { unfold urls.advance. simpl. by rewrite Ht. }
      rewrite Ht1 in Hn, Hall.
      exists (S n). rewrite advance_S in Hk. rewrite Ht. simpl.
      split; [lia|]. split; [|done]. by constructor.
    + intros Hk. exists 0%nat. rewrite advance_0. split; [lia|]. by split.
Qed.

(** The repetition returns something whenever the continuation does
    after the word characters ahead. *)
Lemma star_word_complete (k : urls.mstate → option urls.mstate) (a tl : urls.text)
    (fuel : nat) (st : urls.mstate) :
  urls.ahead st = (a ++ tl)%list →
  Forall (λ c, is_word c = true) a →
  (length a ≤ fuel)%nat →
  is_Some (k (urls.advance (length a) st)) →
  is_Some (urls.star_loop (exec urls.Word) k fuel st).
Proof.
  revert fuel st. induction a as [|c a IH]; intros fuel st Hst Hall Hfuel Hk.
  - rewrite advance_0 in Hk. destruct fuel as [|fuel]; [done|].
    rewrite star_loop_S. by destruct (exec urls.Word st _).
  - destruct fuel as [|fuel]; simpl in Hfuel; [lia|].
    apply Forall_cons in Hall as [Hc Hall].
    rewrite star_loop_S.
    destruct (IH fuel (urls.advance 1 st)) as [m Hm].
    + unfold urls.advance. simpl. by rewrite Hst.
    + done.
    + lia.
    + by rewrite advance_S.
    + assert (exec urls.Word st
                (λ st', if decide (urls.pos st < urls.pos st')%nat
                        then urls.star_loop (exec urls.Word) k fuel st'
                        else None) = Some m) as ->; [|done].
      apply exec_Word. exists c, (a ++ tl)%list.
      split; [done|]. split; [done|].
      case_decide as Hpos; [done|].
      unfold urls.advance in Hpos. simpl in Hpos. lia.
Qed.

(** *** The expression of the grid route *)

Lemma exec_Cat (r1 r2 : urls.regex) (st : urls.mstate)
    (k : urls.mstate → option urls.mstate) :
  exec (urls.Cat r1 r2) st k = exec r1 st (λ st', exec r2 st' k).
Proof. done. Qed.

Lemma exec_Group (name : string) (r : urls.regex) (st : urls.mstate)
    (k : urls.mstate → option urls.mstate) :
  exec (urls.Group name r) st k
  = exec r st
      (λ st', k (urls.close_group name
                   (take (urls.pos st' - urls.pos st) (urls.ahead st)) st')).
Proof. done. Qed.

Lemma exec_Opt (r : urls.regex) (st : urls.mstate)
    (k : urls.mstate → option urls.mstate) :
  exec (urls.Opt r) st k
  = match exec r st k with Some m => Some m | None => k st end.
Proof. done. Qed.

Lemma exec_Star (r : urls.regex) (st : urls.mstate)
    (k : urls.mstate → option urls.mstate) :
  exec (urls.Star r) st k
  = urls.star_loop (exec r) k (length (urls.ahead st)) st.
Proof. done. Qed.

(** The part of the grid expression after the literal name. *)
Definition grid_tail : urls.regex :=
  urls.Cat (urls.Group "action" (urls.Cat (urls.Opt (urls.Lit "/")) (urls.Star urls.Word)))
    (urls.Cat (urls.Lit "/") urls.Dollar).

(** The end of the expression, [/$], after the group was closed. *)
Lemma slash_end (st m : urls.mstate) :
  exec (urls.Cat (urls.Lit "/") urls.Dollar) st Some = Some m ↔
  ∃ nl, urls.line_end nl ∧ urls.ahead st = 47%N :: nl ∧
    m = {| urls.pos := urls.pos st + 1; urls.ahead := nl;
           urls.groups := urls.groups st |}.
Proof.
  rewrite exec_Cat, exec_Lit. split.
  - intros (nl & Hst & [Hnl [= <-]]%exec_Dollar). by exists nl.
  - intros (nl & Hnl & Hst & ->). exists nl. split; [done|].
    by apply exec_Dollar.
Qed.

Lemma word_not_slash (c : N) : is_word c = true → c ≠ 47%N.
Proof. by intros Hc ->. Qed.

Lemma grid_tail_sound (p : nat) (t : urls.text) (m : urls.mstate) :
  exec grid_tail {| urls.pos := p; urls.ahead := t; urls.groups := [] |} Some = Some m →
  ∃ a nl, urls.action_shape unicode_word a ∧ urls.line_end nl ∧
    t = (a ++ 47%N :: nl)%list ∧
    m = {| urls.pos := p + length a + 1; urls.ahead := nl;
           urls.groups := [("action", a)] |}.
Proof.
  unfold grid_tail. rewrite exec_Cat, exec_Group, exec_Cat, exec_Opt.
  cbn [urls.pos urls.ahead].
  destruct (exec (urls.Lit "/") _ _) as [m'|] eqn:Hslash.
  - intros [= ->]. apply exec_Lit in Hslash as (t' & Ht & Hloop).
    cbn [urls.pos urls.ahead urls.groups] in Ht, Hloop. subst t.
    rewrite exec_Star in Hloop.
    apply star_word_sound in Hloop as (n & Hn & Hall & Hk).
    cbn [urls.ahead] in Hn, Hall.
    apply slash_end in Hk as (nl & Hnl & Hrest & ->).
    unfold urls.advance, urls.close_group in *.
    cbn [urls.pos urls.ahead urls.groups] in *.
    exists (47%N :: take n t'), nl.
    split; [right; by eexists|]. split; [done|].
    split.
    + simpl. f_equal. by rewrite <- Hrest, take_drop.
    + replace (p + length (urls.str "/") + n - p)%nat with (S n) by (simpl; lia).
      simpl. rewrite length_take_le by done. f_equal. lia.
  - intros Hloop. rewrite exec_Star in Hloop.
    apply star_word_sound in Hloop as (n & Hn & Hall & Hk).
    cbn [urls.ahead] in Hn, Hall.
    apply slash_end in Hk as (nl & Hnl & Hrest & ->).
    unfold urls.advance, urls.close_group in *.
    cbn [urls.pos urls.ahead urls.groups] in *.
    exists (take n t), nl.
    split; [by left|]. split; [done|].
    split.
    + by rewrite <- Hrest, take_drop.
    + replace (p + n - p)%nat with n by lia.
      rewrite length_take_le by done. done.
Qed.

Lemma slash_end_Some (p : nat) (nl : urls.text) (g : list (string * urls.text)) :
  urls.line_end nl →
  is_Some (exec (urls.Cat (urls.Lit "/") urls.Dollar)
             {| urls.pos := p; urls.ahead := 47%N :: nl; urls.groups := g |} Some).
Proof. intros Hnl. eexists. apply slash_end. by exists nl. Qed.

Lemma grid_tail_complete (p : nat) (a nl : urls.text) :
  urls.action_shape unicode_word a → urls.line_end nl →
  is_Some (exec grid_tail
             {| urls.pos := p; urls.ahead := (a ++ 47%N :: nl)%list;
                urls.groups := [] |} Some).
Proof.
  intros Ha Hnl. unfold grid_tail.
  rewrite exec_Cat, exec_Group, exec_Cat, exec_Opt.
  cbn [urls.pos urls.ahead].
  destruct Ha as [Ha|(a' & -> & Ha)].
  - destruct (exec (urls.Lit "/") _ _) as [m'|]; [done|].
    rewrite exec_Star.
    apply (star_word_complete _ a (47%N :: nl)); try done.
    + cbn [urls.ahead]. rewrite length_app. lia.
    + rewrite start_advance. unfold urls.close_group. cbn [urls.pos urls.ahead urls.groups].
      by apply slash_end_Some.
  - assert (is_Some (exec (urls.Lit "/")
              {| urls.pos := p; urls.ahead := ((47%N :: a') ++ 47%N :: nl)%list;
                 urls.groups := [] |}
              (λ st', exec (urls.Star urls.Word) st'
                 (λ st'0, exec (urls.Cat (urls.Lit "/") urls.Dollar)
                    (urls.close_group "action"
                       (take (urls.pos st'0 - p) ((47%N :: a') ++ 47%N :: nl)%list)
                       st'0) Some))))
      as [m Hm]; [|by rewrite Hm].
    assert (is_Some (urls.star_loop (exec urls.Word)
              (λ st'0, exec (urls.Cat (urls.Lit "/") urls.Dollar)
                 (urls.close_group "action"
                    (take (urls.pos st'0 - p) ((47%N :: a') ++ 47%N :: nl)%list)
                    st'0) Some)
              (length (a' ++ 47%N :: nl)%list)
              {| urls.pos := p + 1; urls.ahead := (a' ++ 47%N :: nl)%list;
                 urls.groups := [] |})) as [m Hm].
    { apply (star_word_complete _ a' (47%N :: nl)); try done.
      + rewrite length_app. lia.
      + rewrite start_advance. unfold urls.close_group.
        cbn [urls.pos urls.ahead urls.groups]. by apply slash_end_Some. }
    exists m. apply exec_Lit. exists (a' ++ 47%N :: nl)%list.
    split; [done|]. by rewrite exec_Star.
Qed.

Lemma action_and_end_unique (a a' nl nl' : urls.text) :
  urls.line_end nl → urls.line_end nl' →
  (a ++ 47%N :: nl)%list = (a' ++ 47%N :: nl')%list →
  a = a' ∧ nl = nl'.
Proof.
  intros [->| ->] [->| ->] Heq.
  - apply (app_inj_tail a a') in Heq as [-> _]. done.
  - change (a' ++ [47%N; 10%N])%list with (a' ++ [47%N] ++ [10%N])%list in Heq.
    rewrite (assoc_L (++)) in Heq. by apply app_inj_tail in Heq as [_ [=]].
  - change (a ++ [47%N; 10%N])%list with (a ++ [47%N] ++ [10%N])%list in Heq.
    rewrite (assoc_L (++)) in Heq. by apply app_inj_tail in Heq as [_ [=]].
  - change (a ++ [47%N; 10%N])%list with (a ++ [47%N] ++ [10%N])%list in Heq.
    change (a' ++ [47%N; 10%N])%list with (a' ++ [47%N] ++ [10%N])%list in Heq.
    rewrite !(assoc_L (++)) in Heq. apply app_inj_tail in Heq as [Heq _].
    by apply app_inj_tail in Heq as [-> _].
Qed.

Lemma search_grid (path : urls.text) (m : urls.mstate) :
  search urls.grid_regex path = Some m ↔
  ∃ a nl, urls.action_shape unicode_word a ∧ urls.line_end nl ∧
    path = (urls.str "manufacturer-fk-widget-grid" ++ a ++ 47%N :: nl)%list ∧
    m = {| urls.pos := 27 + length a + 1; urls.ahead := nl;
           urls.groups := [("action", a)] |}.
Proof.
  unfold urls.grid_regex. rewrite search_Caret, exec_Cat, exec_Lit.
  cbn [urls.pos urls.ahead urls.groups].
  change (exec (urls.Cat (urls.Group "action" _) _)) with (exec grid_tail).
  split.
  - intros (t & -> & (a & nl & Ha & Hnl & -> & ->)%grid_tail_sound).
    by exists a, nl.
  - intros (a & nl & Ha & Hnl & -> & ->). eexists. split; [done|].
    destruct (grid_tail_complete 27 a nl Ha Hnl) as [m Hm].
    change (0 + length (urls.str "manufacturer-fk-widget-grid"))%nat with 27%nat.
    rewrite Hm. f_equal.
    apply grid_tail_sound in Hm as (a' & nl' & _ & Hnl' & Heq & ->).
    by apply action_and_end_unique in Heq as [<- <-].
Qed.

(** *** Which path reaches which pattern *)

(** The first character of a path an expression matches. *)
Lemma search_main_page_head (path : urls.text) :
  is_Some (search urls.main_page_regex path) → head path = None ∨ head path = Some 10%N.
Proof. intros [m [[->| ->] _]%search_main_page]; [by left|by right]. Qed.

Lemma search_accounts_head (path : urls.text) :
  is_Some (search urls.accounts_regex path) → head path = Some 97%N.
Proof. by intros [m (rest & -> & _)%search_accounts]. Qed.

Lemma search_club_create_head (path : urls.text) :
  is_Some (search urls.club_create_regex path) → head path = Some 99%N.
Proof. by intros [m (nl & _ & -> & _)%search_literal_route]. Qed.

Lemma search_grid_head (path : urls.text) :
  is_Some (search urls.grid_regex path) → head path = Some 109%N.
Proof. by intros [m (a & nl & _ & _ & -> & _)%search_grid]. Qed.

Lemma search_jsi18n_head (path : urls.text) :
  is_Some (search urls.jsi18n_regex path) → head path = Some 106%N.
Proof. by intros [m (nl & _ & -> & _)%search_literal_route]. Qed.

(** No path is matched by two of the expressions the file writes out,
    so the order of its patterns decides nothing: the list of the
    expressions is that of [urlpatterns], and two of them that match the
    same path are the same entry. *)
Theorem own_patterns_exclusive :
  urls.entry_regex <$> urls.urlpatterns false [] = urls.own_regexes ∧
  ∀ (path : urls.text) (i j : nat) (ri rj : urls.regex),
    urls.own_regexes !! i = Some ri → urls.own_regexes !! j = Some rj →
    is_Some (search ri path) → is_Some (search rj path) → i = j.
Proof.
  split; [done|]. intros path i j ri rj Hi Hj Hmi Hmj.
  destruct i as [|[|[|[|[|i]]]]]; simpl in Hi; try done; injection Hi as <-;
    destruct j as [|[|[|[|[|j]]]]]; simpl in Hj; try done; injection Hj as <-;
    try done; exfalso;
    repeat match goal with
    | H : is_Some (search urls.main_page_regex _) |- _ =>
        apply search_main_page_head in H
    | H : is_Some (search urls.accounts_regex _) |- _ =>
        apply search_accounts_head in H
    | H : is_Some (search urls.club_create_regex _) |- _ =>
        apply search_club_create_head in H
    | H : is_Some (search urls.grid_regex _) |- _ =>
        apply search_grid_head in H
    | H : is_Some (search urls.jsi18n_regex _) |- _ =>
        apply search_jsi18n_head in H
    end;
    repeat match goal with H : _ ∨ _ |- _ => destruct H end; congruence.
Qed.

(** *** The resolver *)

Variable included : string → urls.text → option urls.ResolverMatch.

Abbreviation resolve := (urls.resolve unicode_word included).

(** Patterns put after a list are asked only about the paths the list
    resolves nothing for. *)
Lemma resolve_app (l1 l2 : list urls.entry) (path : urls.text) :
  resolve (l1 ++ l2) path
  = match resolve l1 path with
    | Some rm => Some rm
    | None => resolve l2 path
    end.
Proof.
  induction l1 as [|e l1 IH]; [done|].
  destruct e as [r v n d|r conf]; simpl.
  - by destruct (urls.search unicode_word r path).
  - destruct (urls.search unicode_word r path) as [m|]; [|done].
    by destruct (included conf (drop (urls.pos m) path)).
Qed.

Lemma search_main_page_None (path : urls.text) (c : N) :
  head path = Some c → c ≠ 10%N → search urls.main_page_regex path = None.
Proof.
  intros Hc Hne. destruct (search urls.main_page_regex path) eqn:Hs; [|done].
  destruct (search_main_page_head path) as [?|?]; [by eexists|congruence..].
Qed.

Lemma search_accounts_None (path : urls.text) :
  head path ≠ Some 97%N → search urls.accounts_regex path = None.
Proof.
  intros Hne. destruct (search urls.accounts_regex path) eqn:Hs; [|done].
  destruct Hne. apply search_accounts_head. by eexists.
Qed.

Lemma search_club_create_None (path : urls.text) :
  head path ≠ Some 99%N → search urls.club_create_regex path = None.
Proof.
  intros Hne. destruct (search urls.club_create_regex path) eqn:Hs; [|done].
  destruct Hne. apply search_club_create_head. by eexists.
Qed.

Lemma search_grid_None (path : urls.text) :
  head path ≠ Some 109%N → search urls.grid_regex path = None.
Proof.
  intros Hne. destruct (search urls.grid_regex path) eqn:Hs; [|done].
  destruct Hne. apply search_grid_head. by eexists.
Qed.

Lemma search_jsi18n_None (path : urls.text) :
  head path ≠ Some 106%N → search urls.jsi18n_regex path = None.
Proof.
  intros Hne. destruct (search urls.jsi18n_regex path) eqn:Hs; [|done].
  destruct Hne. apply search_jsi18n_head. by eexists.
Qed.

(** The patterns of the file with DEBUG off, one step of the resolver
    after the other. *)
Lemma resolve_own (path : urls.text) :
  resolve (urls.urlpatterns false []) path
  = match search urls.main_page_regex path with
    | Some m =>
        Some {| urls.view := "club_app.views.main_page";
                urls.kwargs :=
                  urls.dict_update (urls.groupdict m)
                    [ ("view_title", urls.KStr "Main page");
                      ("allow_anonymous", urls.KBool true) ];
                urls.url_name := Some "club_main_page" |}
    | None =>
    match
      match search urls.accounts_regex path with
      | Some m => included "django_jinja_knockout._allauth.urls"
                    (drop (urls.pos m) path)
      | None => None
      end
    with
    | Some found => Some found
    | None =>
    match search urls.club_create_regex path with
    | Some m =>
        Some {| urls.view := "club_app.views.ClubCreate";
                urls.kwargs :=
                  urls.dict_update (urls.groupdict m)
                    [ ("view_title", urls.KStr "Add new club") ];
                urls.url_name := Some "club_create" |}
    | None =>
    match search urls.grid_regex path with
    | Some m =>
        Some {| urls.view := "club_app.views.ManufacturerFkWidgetGrid";
                urls.kwargs :=
                  urls.dict_update (urls.groupdict m) [ ("ajax", urls.KBool true) ];
                urls.url_name := Some "manufacturer_fk_widget_grid" |}
    | None =>
    match search urls.jsi18n_regex path with
    | Some m =>
        Some {| urls.view := "django.views.i18n.javascript_catalog";
                urls.kwargs := urls.dict_update (urls.groupdict m) urls.js_info_dict;
                urls.url_name := None |}
    | None => None
    end end end end end.
Proof.
  unfold urls.urlpatterns. cbn [app urls.resolve].
  destruct (search urls.main_page_regex path); [done|].
  destruct (search urls.accounts_regex path) as [m|]; [|done].
  by destruct (included _ _).
Qed.

Lemma search_club_create (path : urls.text) (m : urls.mstate) :
  search urls.club_create_regex path = Some m ↔
  ∃ nl, urls.line_end nl ∧ path = (urls.str "club-create/" ++ nl)%list ∧
    m = {| urls.pos := 12; urls.ahead := nl; urls.groups := [] |}.
Proof. apply search_literal_route. Qed.

Lemma search_jsi18n (path : urls.text) (m : urls.mstate) :
  search urls.jsi18n_regex path = Some m ↔
  ∃ nl, urls.line_end nl ∧ path = (urls.str "jsi18n/" ++ nl)%list ∧
    m = {| urls.pos := 7; urls.ahead := nl; urls.groups := [] |}.
Proof. apply search_literal_route. Qed.

(** With DEBUG off the file resolves exactly these paths (a path is
    what follows the leading slash): the empty path to the main page;
    [club-create/] to the club form; [manufacturer-fk-widget-grid],
    an action and a slash to the grid, the action being word characters
    after one slash or none and handed to the view as [action];
    [jsi18n/] to the catalog; and under [accounts/] whatever the
    included configuration resolves for the rest of the path.  Each
    view gets the keyword arguments written in the file.  Where the
    expression ends in [$], one newline after the path changes
    nothing. *)
Theorem resolution_table (path : urls.text) (rm : urls.ResolverMatch) :
  resolve (urls.urlpatterns false []) path = Some rm ↔
  (urls.line_end path ∧
   rm = {| urls.view := "club_app.views.main_page";
           urls.kwargs := [ ("view_title", urls.KStr "Main page");
                            ("allow_anonymous", urls.KBool true) ];
           urls.url_name := Some "club_main_page" |}) ∨
  (∃ rest, path = (urls.str "accounts/" ++ rest)%list ∧
     included "django_jinja_knockout._allauth.urls" rest = Some rm) ∨
  (∃ nl, urls.line_end nl ∧ path = (urls.str "club-create/" ++ nl)%list ∧
     rm = {| urls.view := "club_app.views.ClubCreate";
             urls.kwargs := [ ("view_title", urls.KStr "Add new club") ];
             urls.url_name := Some "club_create" |}) ∨
  (∃ a nl, urls.action_shape unicode_word a ∧ urls.line_end nl ∧
     path = (urls.str "manufacturer-fk-widget-grid" ++ a ++ 47%N :: nl)%list ∧
     rm = {| urls.view := "club_app.views.ManufacturerFkWidgetGrid";
             urls.kwargs := [ ("action", urls.KText a); ("ajax", urls.KBool true) ];
             urls.url_name := Some "manufacturer_fk_widget_grid" |}) ∨
  (∃ nl, urls.line_end nl ∧ path = (urls.str "jsi18n/" ++ nl)%list ∧
     rm = {| urls.view := "django.views.i18n.javascript_catalog";
             urls.kwargs := [ ("domain", urls.KStr "djangojs");
                              ("packages", urls.KTuple ["djk_sample"]) ];
             urls.url_name := None |}).
Proof.
  rewrite resolve_own. split.
  - destruct (search urls.main_page_regex path) as [m|] eqn:H1.
    { intros [= <-]. apply search_main_page in H1 as [Hle ->]. by left. }
    destruct (search urls.accounts_regex path) as [m|] eqn:H2.
    { apply search_accounts in H2 as (rest & -> & ->).
      cbn [urls.pos].
      change (drop 9 (urls.str "accounts/" ++ rest)%list) with rest.
      destruct (included _ rest) as [found|] eqn:Hinc.
      - intros [= <-]. right; left. by exists rest.
      - rewrite search_club_create_None, search_grid_None, search_jsi18n_None;
          done. }
    destruct (search urls.club_create_regex path) as [m|] eqn:H3.
    { intros [= <-]. apply search_literal_route in H3 as (nl & Hnl & -> & ->).
      right; right; left. by exists nl. }
    destruct (search urls.grid_regex path) as [m|] eqn:H4.
    { intros [= <-]. apply search_grid in H4 as (a & nl & Ha & Hnl & -> & ->).
      right; right; right; left. by exists a, nl. }
    destruct (search urls.jsi18n_regex path) as [m|] eqn:H5; [|done].
    intros [= <-]. apply search_literal_route in H5 as (nl & Hnl & -> & ->).
    right; right; right; right. by exists nl.
  - intros [[Hle ->]|[(rest & -> & Hinc)|[(nl & Hnl & -> & ->)|
             [(a & nl & Ha & Hnl & -> & ->)|(nl & Hnl & -> & ->)]]]].
    + by rewrite (proj2 (search_main_page path _) (conj Hle eq_refl)).
    + rewrite (search_main_page_None _ 97) by done.
      rewrite (proj2 (search_accounts _ _) (ex_intro _ rest (conj eq_refl eq_refl))).
      cbn [urls.pos].
      change (drop 9 (urls.str "accounts/" ++ rest)%list) with rest.
      by rewrite Hinc.
    + rewrite (search_main_page_None _ 99) by done.
      rewrite search_accounts_None by done.
      by rewrite (proj2 (search_club_create _ _)
                    (ex_intro _ nl (conj Hnl (conj eq_refl eq_refl)))).
    + rewrite (search_main_page_None _ 109) by done.
      rewrite search_accounts_None, search_club_create_None by done.
      by rewrite (proj2 (search_grid _ _)
                    (ex_intro _ a (ex_intro _ nl
                       (conj Ha (conj Hnl (conj eq_refl eq_refl)))))).
    + rewrite (search_main_page_None _ 106) by done.
      rewrite search_accounts_None, search_club_create_None, search_grid_None
        by done.
      by rewrite (proj2 (search_jsi18n _ _)
                    (ex_intro _ nl (conj Hnl (conj eq_refl eq_refl)))).
Qed.

(** The patterns that DEBUG adds stand after the file's own: whatever
    they are, they are asked only about the paths the file's own
    patterns resolve nothing for, so they take no path away from a route
    of the file. *)
Theorem debug_patterns_come_last (staticfiles_urlpatterns : list urls.entry)
    (path : urls.text) :
  resolve (urls.urlpatterns true staticfiles_urlpatterns) path
  = match resolve (urls.urlpatterns false []) path with
    | Some rm => Some rm
    | None => resolve staticfiles_urlpatterns path
    end.
Proof.
  unfold urls.urlpatterns. rewrite !(assoc_L (++)).
  rewrite resolve_app. by rewrite app_nil_r.
Qed.

(** A path that one of the file's own routes resolves, and that does
    not end in a newline yet, resolves to the same view with the same
    keyword arguments when one newline is put after it: [$] lets the
    newline pass. *)
Theorem trailing_newline_ignored (path : urls.text) (rm : urls.ResolverMatch) :
  resolve (urls.urlpatterns false []) path = Some rm →
  (∀ rest, path ≠ (urls.str "accounts/" ++ rest)%list) →
  last path ≠ Some 10%N →
  resolve (urls.urlpatterns false []) (path ++ [10%N]) = Some rm.
Proof.
  intros Hres Hacc Hlast.
  assert (∀ (pre nl : urls.text), urls.line_end nl →
            path = (pre ++ nl)%list → nl = []) as Hnl.
  { intros pre nl [->| ->] Hp; [done|]. destruct Hlast.
    rewrite Hp. by rewrite last_snoc. }
  apply resolution_table in Hres
    as [[Hle ->]|[(rest & -> & Hinc)|[(nl & Hle & Hp & ->)|
         [(a & nl & Ha & Hle & Hp & ->)|(nl & Hle & Hp & ->)]]]];
    apply resolution_table.
  - left. split; [|done]. rewrite (Hnl [] path Hle eq_refl). by right.
  - by destruct (Hacc rest).
  - right; right; left. exists [10%N]. split; [by right|]. split; [|done].
    rewrite Hp, (Hnl _ nl Hle Hp). by rewrite app_nil_r.
  - right; right; right; left. exists a, [10%N].
    split; [done|]. split; [by right|]. split; [|done].
    assert (nl = []) as ->.
    { apply (Hnl (urls.str "manufacturer-fk-widget-grid" ++ a ++ [47%N])%list);
        [done|]. rewrite Hp. by rewrite <- !(assoc_L (++)). }
    rewrite Hp. by rewrite <- !(assoc_L (++)).
  - right; right; right; right. exists [10%N]. split; [by right|]. split; [|done].
    rewrite Hp, (Hnl _ nl Hle Hp). by rewrite app_nil_r.
Qed.
End routing.

Lemma trailing_newline_witness :
  urls.resolve (λ _, false) (λ _ _, None) (urls.urlpatterns false [])
    (urls.str "club-create/" ++ [10%N])
  = Some {| urls.view := "club_app.views.ClubCreate";
            urls.kwargs := [ ("view_title", urls.KStr "Add new club") ];
            urls.url_name := Some "club_create" |}.
Proof.
  apply (trailing_newline_ignored (λ _, false) (λ _ _, None)
           (urls.str "club-create/")); [by vm_compute| |done].
  by intros rest [=].
Defined.

Example grid_route_sample :
  urls.resolve (λ _, false) (λ _ _, None) (urls.urlpatterns false [])
    (urls.str "manufacturer-fk-widget-grid/update/")
  = Some {| urls.view := "club_app.views.ManufacturerFkWidgetGrid";
            urls.kwargs := [ ("action", urls.KText (urls.str "/update"));
                             ("ajax", urls.KBool true) ];
            urls.url_name := Some "manufacturer_fk_widget_grid" |}.
Proof. by vm_compute. Qed.

(** * More on deletes and on failed saves *)


(** A first save that raises has stamped the object all the same and
    has stored nothing.  When the object is saved again the foundation
    date keeps the stamp of the failed attempt; only [last_update] is
    stamped anew, with the one reading of the clock the retry takes. *)
Theorem Club_save_retry (c : Club.t) (w : World) :
  Club.pk c = None →
  (Club.save c w).1.1 ≠ Ok () →
  Club.pk (Club.save c w).1.2 = None ∧
  is_Some (Club.foundation_date (Club.save c w).1.2) ∧
  database (Club.save c w).2 = database w ∧
  Club.foundation_date (Club.save (Club.save c w).1.2 (Club.save c w).2).1.2
    = Club.foundation_date (Club.save c w).1.2 ∧
  Club.last_update (Club.save (Club.save c w).1.2 (Club.save c w).2).1.2
    = Some (ADateTime (clock (Club.save c w).2 (reads (Club.save c w).2))) ∧
  reads (Club.save (Club.save c w).1.2 (Club.save c w).2).2
    = S (reads (Club.save c w).2).
Proof.
  intros Hpk Hres.
  destruct (Club_save_is_Model_save c w)
    as (c1 & w1 & Hsave & Hdb & _ & Hpk1 & Hdates & _).
  rewrite Hsave in *.
  destruct (Hdates Hpk) as [[fd Hfd] _].
  destruct ((Club.Model_save c1 w1).1.1) as [[]|x] eqn:Hx; [done|].
  destruct (Model_save_Raise c1 w1 x Hx) as [-> ->].
  rewrite Hpk1, Hpk, Hfd. split; [done|]. split; [by eexists|]. split; [done|].
  unfold Club.save. rewrite Hpk1, Hpk, Hfd. cbn -[Club.Model_save].
  match goal with |- context [Club.Model_save ?c' ?w'] =>
    destruct (Model_save_instance c' w') as (-> & -> & _ & _ & -> & _) end.
  cbn. by rewrite Hfd.
Qed.

Lemma Club_save_retry_witness :
  Club.foundation_date
    (Club.save (Club.save new_club populated_world).1.2
       (Club.save new_club populated_world).2).1.2
  = Club.foundation_date (Club.save new_club populated_world).1.2.
Proof.
  apply (Club_save_retry new_club populated_world); by vm_compute.
Defined.

